(** * wopr-plugin-mattermost: routing decisions, session orchestration and
      the WebSocket transport client.

    The development follows the TypeScript sources:
    - [types.ts]              records of the wire objects and of the config;
    - [index.ts]              [buildSessionKey], [isDMChannel], [shouldRespond],
                              [handlePostedEvent];
    - [mattermost-client.ts]  the WebSocket half of [MattermostClient].

    JavaScript strings are sequences of code units; they are embedded as
    Stdlib strings, whose operations used here (concatenation, [length],
    [substring], prefix test) work unit by unit in the same way. *)

From Stdlib Require Import ZArith Lia List Bool Ascii String DecimalString.
From stdpp Require Import base option gmap strings.
Import ListNotations.

Local Open Scope string_scope.

(** ** Data model (types.ts) *)

Inductive DmPolicy := DmOpen | DmPairing | DmClosed.
Inductive GroupPolicy := GroupAllowlist | GroupOpen | GroupDisabled.
Inductive ReplyToMode := ReplyOff | ReplyThread | ReplyAlwaysThread.

(** One entry of [config.channels]: both fields are optional booleans. *)
Record ChannelConfig := {
  allow : option bool;
  requireMention : option bool;
}.

(** [MattermostConfig], restricted to the fields read by the routing code.
    [channels] is a JS object used as a table keyed by channel id: the map
    holds its own entries, and [Index.channel_entry] is the property lookup
    [config.channels[channelId]], which also finds what a plain object
    inherits. *)
Record MattermostConfig := {
  dmPolicy : option DmPolicy;
  groupPolicy : option GroupPolicy;
  channels : option (gmap string ChannelConfig);
  replyToMode : option ReplyToMode;
}.

Record MattermostPost := {
  id : string;
  user_id : string;
  channel_id : string;
  root_id : string;   (* empty string if not a thread reply *)
  message : string;
  type : string;
}.

Record MattermostChannel := { channel_type_of : string }.
Record MattermostUser := { username : string }.

(** JS truthiness of a string: every string but the empty one. *)
Definition truthy (s : string) : bool :=
  match s with EmptyString => false | String _ _ => true end.

(** [o || d] for an optional enum field. *)
Definition or_default {A} (o : option A) (d : A) : A :=
  match o with Some a => a | None => d end.

(** JS truthiness of an optional boolean field. *)
Definition truthy_flag (o : option bool) : bool :=
  match o with Some true => true | _ => false end.

(** ** index.ts: routing decisions *)

Module Index.

(** Mattermost message character limit. *)
Definition MM_MSG_LIMIT : Z := 16383.

Definition buildSessionKey (channelId : string) (isDM : bool) : string :=
  if isDM then "mattermost-dm-" +:+ channelId
  else "mattermost-channel-" +:+ channelId.

Definition isDMChannel (channelType : string) : bool :=
  String.eqb channelType "D" || String.eqb channelType "G".

(** The plugin context handed over by the host; [logMessage] is called
    through [?.], so it may be missing. *)
Record WOPRPluginContext := { has_logMessage : bool }.

(** The module-level variables of index.ts that the handlers read. *)
Record Globals := {
  ctx : option WOPRPluginContext;
  client : bool;              (* [client !== null] *)
  config : MattermostConfig;
  botUserId : string;
  botUsername : string;
}.

(** The names every plain object inherits from [Object.prototype]. *)
Definition Object_prototype_names : list string :=
  [ "constructor"; "__defineGetter__"; "__defineSetter__"; "hasOwnProperty";
    "__lookupGetter__"; "__lookupSetter__"; "isPrototypeOf";
    "propertyIsEnumerable"; "toString"; "valueOf"; "__proto__";
    "toLocaleString" ].

Definition inherited (name : string) : bool :=
  existsb (String.eqb name) Object_prototype_names.

(** [config.channels[channelId]]: the entry of the table under that id; for
    an id without an entry that names an inherited member, that member,
    which is an object with neither [allow] nor [requireMention]; [None] is
    [undefined]. *)
Definition channel_entry (table : gmap string ChannelConfig)
    (channelId : string) : option ChannelConfig :=
  match table !! channelId with
  | Some channelConfig => Some channelConfig
  | None => if inherited channelId
            then Some {| allow := None; requireMention := None |}
            else None
  end.

Definition shouldRespond (g : Globals) (post : MattermostPost)
    (channelType : string) (botMentioned : bool) : bool :=
  (* Ignore our own messages *)
  if String.eqb (user_id post) (botUserId g) then false
  (* Ignore system messages *)
  else if truthy (type post) && negb (String.eqb (type post) "") then false
  else
    let isDM := isDMChannel channelType in
    if isDM then
      match or_default (dmPolicy (config g)) DmPairing with
      | DmClosed => false
      | _ => true
      end
    else
      match or_default (groupPolicy (config g)) GroupOpen with
      | GroupDisabled => false
      | GroupOpen => botMentioned
      | GroupAllowlist =>
          match channels (config g) with
          | Some table =>
              match channel_entry table (channel_id post) with
              | None => false
              | Some channelConfig =>
                  if bool_decide (allow channelConfig = Some false) then false
                  else if truthy_flag (requireMention channelConfig)
                       then botMentioned
                       else true
              end
          | None => false
          end
      end.


(** *** Collaborator calls

    [handlePostedEvent] is asynchronous code that awaits the REST wrappers
    of the client and the host's [inject]; each of them may reject. A
    handler is a tree of such calls: the continuation of a call receives
    either the thrown error or the value. *)

Definition Err := string.

Inductive Call :=
| GetChannel (channelId : string)
| GetUser (userId : string)
| CreatePost (channelId text : string) (rootId : option string)
| UpdatePost (postId text : string)
| Inject (session text from channel : string)
| LogMessage (session text from channel : string).

Inductive Kind := KChannel | KUser | KPost | KText | KUnit.

Definition kind (c : Call) : Kind :=
  match c with
  | GetChannel _ => KChannel
  | GetUser _ => KUser
  | CreatePost _ _ _ | UpdatePost _ _ => KPost
  | Inject _ _ _ _ => KText
  | LogMessage _ _ _ _ => KUnit
  end.

Definition Resp (k : Kind) : Type :=
  match k with
  | KChannel => MattermostChannel
  | KUser => MattermostUser
  | KPost => MattermostPost
  | KText => string
  | KUnit => unit
  end.

Inductive Prog (A : Type) : Type :=
| Ret (a : A)
| Throw (e : Err)
| Do (c : Call) (k : Err + Resp (kind c) -> Prog A)
| Log (line : string) (k : Prog A).
(* [Log] is [logger?.error(...)]: the logger is set together with [ctx], and
   the handler does nothing when [ctx] is unset. *)

Arguments Ret {A} a.
Arguments Throw {A} e.
Arguments Do {A} c k.
Arguments Log {A} line k.

Fixpoint bind {A B} (p : Prog A) (f : A -> Prog B) : Prog B :=
  match p with
  | Ret a => f a
  | Throw e => Throw e
  | Do c k => Do c (fun r => bind (k r) f)
  | Log l k => Log l (bind k f)
  end.

(** [try { p } catch (e) { h e }] *)
Fixpoint try_catch {A} (p : Prog A) (h : Err -> Prog A) : Prog A :=
  match p with
  | Ret a => Ret a
  | Throw e => h e
  | Do c k => Do c (fun r => try_catch (k r) h)
  | Log l k => Log l (try_catch k h)
  end.

(** [await c]: the value, or the rejection rethrown. *)
Definition await (c : Call) : Prog (Resp (kind c)) :=
  Do c (fun r => match r with inl e => Throw e | inr v => Ret v end).

Notation "'let!' x ':=' p 'in' q" := (bind p (fun x => q))
  (at level 10, x name, p at level 100, q at level 200).

(** *** Running a handler against the outside world

    The world is any state [W] with an answer to every call. *)

Inductive Entry :=
| Called (c : Call) (r : Err + Resp (kind c))
| Logged (line : string).

Fixpoint run {W A} (oracle : forall c : Call, W -> (Err + Resp (kind c)) * W)
    (p : Prog A) (w : W) : list Entry * (Err + A) * W :=
  match p with
  | Ret a => ([], inr a, w)
  | Throw e => ([], inl e, w)
  | Do c k =>
      let '(r, w1) := oracle c w in
      let '(t, o, w2) := run oracle (k r) w1 in
      (Called c r :: t, o, w2)
  | Log l k =>
      let '(t, o, w2) := run oracle k w in
      (Logged l :: t, o, w2)
  end.

(** Observations on one entry of a run. *)


(** The entry is part of a reply: a post, an edit or an AI-inject call. *)
Definition is_reply_call (e : Entry) : bool :=
  match e with
  | Called (CreatePost _ _ _) _ | Called (UpdatePost _ _) _
  | Called (Inject _ _ _ _) _ => true
  | _ => false
  end.


(** The text handed to the AI-inject collaborator, for an inject entry. *)
Definition inject_text (e : Entry) : option string :=
  match e with
  | Called (Inject _ t _ _) _ => Some t
  | _ => None
  end.

(** *** The posted-event handler *)

(** [event.data.post] arrives either as a JSON string or as an object. *)
Inductive PostData :=
| PostJson (raw : string)
| PostObject (post : MattermostPost).

(** [MattermostWsEvent]: the discriminator and the two members of [data]
    that the handler reads. *)
Record MattermostWsEvent := {
  event : string;
  data_post : option PostData;
  data_channel_type : option string;
}.

Definition THINKING : string := "_Thinking..._".
Definition ERROR_NOTICE : string :=
  "Error processing your request. Please try again.".

(** [hay.includes(needle)] *)
Fixpoint includes (needle hay : string) : bool :=
  String.prefix needle hay ||
  match hay with
  | EmptyString => false
  | String _ rest => includes needle rest
  end.

(** [const botMentioned = botUsername ? post.message.includes(`@${botUsername}`) : false] *)
Definition botMentioned (g : Globals) (post : MattermostPost) : bool :=
  if truthy (botUsername g) then includes ("@" +:+ botUsername g) (message post)
  else false.

(** [const finalText = response.length > MM_MSG_LIMIT ? ... : response] *)
Definition finalText (response : string) : string :=
  if (MM_MSG_LIMIT <? Z.of_nat (String.length response))%Z
  then substring 0 (Z.to_nat (MM_MSG_LIMIT - 3)) response +:+ "..."
  else response.

(** The threading block of [handlePostedEvent]: the value of [rootId]. *)
Definition rootId (g : Globals) (post : MattermostPost) : option string :=
  match or_default (replyToMode (config g)) ReplyThread with
  | ReplyAlwaysThread =>
      Some (if truthy (root_id post) then root_id post else id post)
  | ReplyThread => if truthy (root_id post) then Some (root_id post) else None
  | ReplyOff => None
  end.

Section Handlers.

(** Built-ins of the JavaScript runtime, taken as given:
    [JSON_parse raw] is [None] when [JSON.parse] throws and [Some post]
    when [raw] parses to a post of the shape the source declares for it
    ([MattermostPost]); a payload that parses to anything else (null, a
    number, an object without the fields of a post) is not covered: the
    source fails on a field access there;
    [RegExp_replace_gi source s] is [s.replace(new RegExp(source, "gi"), "")],
    the pattern being taken as well formed (it is for the usernames
    Mattermost admits: letters, digits, ".", "-" and "_");
    [trim] is [String.prototype.trim]. *)
Variable JSON_parse : string -> option MattermostPost.
Variable RegExp_replace_gi : string -> string -> string.
Variable trim : string -> string.

(** The mention-stripping block: the value of [messageText]. *)
Definition messageText (g : Globals) (post : MattermostPost) : string :=
  if truthy (botUsername g)
  then trim (RegExp_replace_gi ("@" +:+ botUsername g +:+ "\s*") (message post))
  else message post.

(** The first lines of [handlePostedEvent]: the post carried by the
    event; [None] where the handler returns early (no [data.post], an
    empty string, or a string that does not parse). *)
Definition postOf (ev : MattermostWsEvent) : option MattermostPost :=
  match data_post ev with
  | None | Some (PostJson "") => None
  | Some (PostJson raw) => JSON_parse raw
  | Some (PostObject p) => Some p
  end.

Definition handlePostedEvent (g : Globals) (ev : MattermostWsEvent)
    : Prog unit :=
  match ctx g, client g with
  | Some context, true =>
      match postOf ev with
      | None => Ret tt
      | Some post =>
        (* Get channel type from event data (avoids extra REST call) *)
        let channelType := or_default (data_channel_type ev) "" in
        let! channelType :=
          (if truthy channelType then Ret channelType
           else try_catch
                  (let! channel := await (GetChannel (channel_id post)) in
                   Ret (channel_type_of channel))
                  (fun _ => Ret "O")) in
        if negb (shouldRespond g post channelType (botMentioned g post)) then
          (* Log to session for context even if not responding *)
          let isDM := isDMChannel channelType in
          let sessionKey := buildSessionKey (channel_id post) isDM in
          try_catch
            (let! user := await (GetUser (user_id post)) in
             if has_logMessage context
             then await (LogMessage sessionKey (message post)
                           (username user) (channel_id post))
             else Ret tt)
            (fun _ => Ret tt)
        else
          let isDM := isDMChannel channelType in
          let sessionKey := buildSessionKey (channel_id post) isDM in
          let! senderUsername :=
            try_catch
              (let! user := await (GetUser (user_id post)) in
               Ret (username user))
              (fun _ => Ret (user_id post)) in
          Do (CreatePost (channel_id post) THINKING (rootId g post))
             (fun r =>
                match r with
                | inl _ => Log "Failed to post thinking message:" (Ret tt)
                | inr thinkingPost =>
                  try_catch
                    (let! response :=
                       await (Inject sessionKey (messageText g post)
                                senderUsername (channel_id post)) in
                     let! _ :=
                       await (UpdatePost (id thinkingPost)
                                (finalText response)) in
                     Ret tt)
                    (fun _ =>
                       Log "Inject failed:"
                         (try_catch
                            (let! _ :=
                               await (UpdatePost (id thinkingPost)
                                        ERROR_NOTICE) in
                             Ret tt)
                            (fun _ => Ret tt)))
                end)
      end
  | _, _ => Ret tt
  end.

(** [handleWsEvent]: only the "posted" kind is acted on, and a rejection
    of its handler is caught and logged. [dispatchWsEvent] is the function
    with the handler of "posted" events left open. *)
Definition dispatchWsEvent (onPosted : MattermostWsEvent -> Prog unit)
    (ev : MattermostWsEvent) : Prog unit :=
  if String.eqb (event ev) "posted"
  then try_catch (onPosted ev)
         (fun _ => Log "Error handling posted event:" (Ret tt))
  else Ret tt.

Definition handleWsEvent (g : Globals) (ev : MattermostWsEvent) : Prog unit :=
  dispatchWsEvent (handlePostedEvent g) ev.

End Handlers.

(** *** Further observations on the entries of a run *)

Definition is_create (e : Entry) : bool :=
  match e with Called (CreatePost _ _ _) _ => true | _ => false end.
Definition is_inject (e : Entry) : bool :=
  match e with Called (Inject _ _ _ _) _ => true | _ => false end.
Definition is_log_message (e : Entry) : bool :=
  match e with Called (LogMessage _ _ _ _) _ => true | _ => false end.
Definition is_get_channel (e : Entry) : bool :=
  match e with Called (GetChannel _) _ => true | _ => false end.

(** The entry is a placeholder post that was rejected. *)
Definition is_failed_create (e : Entry) : bool :=
  match e with
  | Called c r =>
      match c, r with
      | CreatePost _ _ _, inl _ => true
      | _, _ => false
      end
  | Logged _ => false
  end.

(** The entry is a channel or a sender lookup that was rejected. *)
Definition is_failed_get_channel (e : Entry) : bool :=
  match e with
  | Called c r =>
      match c, r with
      | GetChannel _, inl _ => true
      | _, _ => false
      end
  | Logged _ => false
  end.
Definition is_failed_get_user (e : Entry) : bool :=
  match e with
  | Called c r =>
      match c, r with
      | GetUser _, inl _ => true
      | _, _ => false
      end
  | Logged _ => false
  end.

(** The channel type answered by a successful channel lookup. *)
Definition channel_answer (e : Entry) : option string :=
  match e with
  | Called c r =>
      match c return Err + Resp (kind c) -> option string with
      | GetChannel _ => fun r => match r with
                                 | inr ch => Some (channel_type_of ch)
                                 | inl _ => None
                                 end
      | _ => fun _ => None
      end r
  | Logged _ => None
  end.

(** The username answered by a successful sender lookup. *)
Definition user_answer (e : Entry) : option string :=
  match e with
  | Called c r =>
      match c return Err + Resp (kind c) -> option string with
      | GetUser _ => fun r => match r with
                              | inr u => Some (username u)
                              | inl _ => None
                              end
      | _ => fun _ => None
      end r
  | Logged _ => None
  end.




(** Session key, sender name and channel id handed to the AI-inject or the
    history-log collaborator. *)
Definition session_of (e : Entry) : option string :=
  match e with
  | Called (Inject k _ _ _) _ | Called (LogMessage k _ _ _) _ => Some k
  | _ => None
  end.
Definition from_of (e : Entry) : option string :=
  match e with
  | Called (Inject _ _ f _) _ | Called (LogMessage _ _ f _) _ => Some f
  | _ => None
  end.
Definition channel_of (e : Entry) : option string :=
  match e with
  | Called (Inject _ _ _ c) _ | Called (LogMessage _ _ _ c) _ => Some c
  | _ => None
  end.

(** The post an edit is aimed at. *)
Definition edit_target (e : Entry) : option string :=
  match e with
  | Called (UpdatePost p _) _ => Some p
  | _ => None
  end.

Fixpoint count_entries (p : Entry -> bool) (t : list Entry) : nat :=
  match t with
  | [] => 0
  | e :: rest => (if p e then 1 else 0) + count_entries p rest
  end.

(** *** Plugin shutdown: the module variables after [shutdown()] *)


End Index.

(** ** mattermost-client.ts: the WebSocket half of [MattermostClient]

    The class lives in a Node runtime that owns the sockets it constructs
    and the timeouts it sets. Both are kept in creation order, so a socket
    or timeout handle is its index. The runtime feeds the class with socket
    events and expired timeouts; the program calls its public methods. *)

Module Client.

Import Index.

Definition SocketId := nat.
Definition TimerId := nat.

Inductive ReadyState := CONNECTING | OPEN | CLOSING | CLOSED.

(** The only frame the client ever sends. *)
Inductive Frame :=
| authentication_challenge (seq : Z) (token : string).

Record Socket := {
  url : string;
  readyState : ReadyState;
  sent : list Frame;
}.

Inductive TimerState := Pending | Fired | Cleared.

Record Timeout := {
  delay : Z;             (* milliseconds *)
  timerState : TimerState;
}.

#[global] Instance ReadyState_eq_dec : EqDecision ReadyState.
Proof. solve_decision. Defined.
#[global] Instance TimerState_eq_dec : EqDecision TimerState.
Proof. solve_decision. Defined.

(** What the client reads of a [fetch] response: [res.ok], [res.status],
    the body as text and the [token] header. *)
Record FetchResponse := {
  ok : bool;
  status : N;
  text : string;
  token_header : option string;
}.

(** [`${res.status}`] *)
Definition status_text (n : N) : string :=
  NilZero.string_of_uint (N.to_uint n).

Section WithListeners.

(** What listeners act upon: anything outside the client. A listener
    returns the new outside state and whether it threw. Listeners that
    call back into the client while an event is being dispatched are not
    covered. *)
Variable Obs : Type.
Variable JSON_parse : string -> option MattermostWsEvent.

(** A registered callback. JS compares functions by identity: [hid]. *)
Record WsEventHandler := {
  hid : nat;
  handler : MattermostWsEvent -> Obs -> Obs * bool;
}.

Record MattermostClient := {
  baseUrl : string;
  token : string;
  ws : option SocketId;
  wsListeners : list WsEventHandler;
  reconnectTimer : option TimerId;
  reconnectAttempts : nat;
  shouldReconnect : bool;
}.

Definition maxReconnectAttempts : nat := 10.
Definition reconnectBaseDelay : Z := 1000.

(** The class instance together with its runtime and the outside state.
    [delivered] records every listener invocation, oldest first. *)
Record System := {
  this : MattermostClient;
  sockets : list Socket;
  timeouts : list Timeout;
  outside : Obs;
  delivered : list (nat * MattermostWsEvent);
}.

Definition with_this (s : System) (c : MattermostClient) : System :=
  {| this := c; sockets := sockets s; timeouts := timeouts s;
     outside := outside s; delivered := delivered s |}.

Definition with_sockets (s : System) (l : list Socket) : System :=
  {| this := this s; sockets := l; timeouts := timeouts s;
     outside := outside s; delivered := delivered s |}.

Definition with_timeouts (s : System) (l : list Timeout) : System :=
  {| this := this s; sockets := sockets s; timeouts := l;
     outside := outside s; delivered := delivered s |}.

Definition set_ws (c : MattermostClient) (v : option SocketId) :=
  {| baseUrl := baseUrl c; token := token c; ws := v;
     wsListeners := wsListeners c; reconnectTimer := reconnectTimer c;
     reconnectAttempts := reconnectAttempts c;
     shouldReconnect := shouldReconnect c |}.

Definition set_wsListeners (c : MattermostClient) (v : list WsEventHandler) :=
  {| baseUrl := baseUrl c; token := token c; ws := ws c;
     wsListeners := v; reconnectTimer := reconnectTimer c;
     reconnectAttempts := reconnectAttempts c;
     shouldReconnect := shouldReconnect c |}.

Definition set_reconnectTimer (c : MattermostClient) (v : option TimerId) :=
  {| baseUrl := baseUrl c; token := token c; ws := ws c;
     wsListeners := wsListeners c; reconnectTimer := v;
     reconnectAttempts := reconnectAttempts c;
     shouldReconnect := shouldReconnect c |}.

Definition set_reconnectAttempts (c : MattermostClient) (v : nat) :=
  {| baseUrl := baseUrl c; token := token c; ws := ws c;
     wsListeners := wsListeners c; reconnectTimer := reconnectTimer c;
     reconnectAttempts := v;
     shouldReconnect := shouldReconnect c |}.

Definition set_shouldReconnect (c : MattermostClient) (v : bool) :=
  {| baseUrl := baseUrl c; token := token c; ws := ws c;
     wsListeners := wsListeners c; reconnectTimer := reconnectTimer c;
     reconnectAttempts := reconnectAttempts c;
     shouldReconnect := v |}.

(** *** Runtime primitives *)

(** [new WebSocket(url)] *)
Definition new_WebSocket (u : string) (s : System) : SocketId * System :=
  (length (sockets s),
   with_sockets s
     (sockets s ++ [{| url := u; readyState := CONNECTING; sent := [] |}])).

Definition state_of (sock : SocketId) (s : System) : option ReadyState :=
  readyState <$> sockets s !! sock.

(** [sock.send(frame)]: on an OPEN socket the frame goes out; on a socket
    that is still CONNECTING [send] throws ([None]); on a socket that is
    closing or closed nothing goes out and nothing is thrown. *)
Definition socket_send (sock : SocketId) (f : Frame) (s : System)
    : option System :=
  match state_of sock s with
  | Some CONNECTING => None
  | Some OPEN =>
      Some (with_sockets s
              (alter (fun k => {| url := url k; readyState := readyState k;
                                  sent := sent k ++ [f] |}) sock (sockets s)))
  | _ => Some s
  end.

(** [sock.close()]: starts the closing handshake; the close event comes
    later, from the runtime. *)
Definition socket_close (sock : SocketId) (s : System) : System :=
  with_sockets s
    (alter (fun k => {| url := url k;
                        readyState := match readyState k with
                                      | CLOSED => CLOSED
                                      | _ => CLOSING
                                      end;
                        sent := sent k |}) sock (sockets s)).

Definition set_readyState (sock : SocketId) (r : ReadyState) (s : System)
    : System :=
  with_sockets s
    (alter (fun k => {| url := url k; readyState := r; sent := sent k |})
       sock (sockets s)).

(** [setTimeout(callback, ms)]; the callback is always [doConnect]. *)
Definition setTimeout (ms : Z) (s : System) : TimerId * System :=
  (length (timeouts s),
   with_timeouts s
     (timeouts s ++ [{| delay := ms; timerState := Pending |}])).

(** [clearTimeout(t)]: only a pending timeout is affected. *)
Definition clearTimeout (t : TimerId) (s : System) : System :=
  with_timeouts s
    (alter (fun k => {| delay := delay k;
                        timerState := match timerState k with
                                      | Pending => Cleared
                                      | st => st
                                      end |}) t (timeouts s)).

(** *** Methods of the class *)

(** [baseUrl.replace(/^http/, "ws") + "/api/v4/websocket"] *)
Definition wsUrl (c : MattermostClient) : string :=
  (match baseUrl c with
   | String "h" (String "t" (String "t" (String "p" rest))) => "ws" +:+ rest
   | other => other
   end) +:+ "/api/v4/websocket".

Definition doConnect (s : System) : System :=
  let '(sock, s) := new_WebSocket (wsUrl (this s)) s in
  with_this s (set_ws (this s) (Some sock)).

Definition connectWebSocket (s : System) : System :=
  doConnect (with_this s (set_shouldReconnect (this s) true)).

Definition scheduleReconnect (s : System) : System :=
  if (maxReconnectAttempts <=? reconnectAttempts (this s))%nat then s
  else
    let ms := (reconnectBaseDelay * 2 ^ Z.of_nat (reconnectAttempts (this s)))%Z in
    let s := with_this s (set_reconnectAttempts (this s)
                            (S (reconnectAttempts (this s)))) in
    let '(t, s) := setTimeout ms s in
    with_this s (set_reconnectTimer (this s) (Some t)).

Definition disconnectWebSocket (s : System) : System :=
  let s := with_this s (set_shouldReconnect (this s) false) in
  let s := match reconnectTimer (this s) with
           | Some t =>
               let s := clearTimeout t s in
               with_this s (set_reconnectTimer (this s) None)
           | None => s
           end in
  match ws (this s) with
  | Some sock =>
      let s := socket_close sock s in
      with_this s (set_ws (this s) None)
  | None => s
  end.

Definition addMessageListener (h : WsEventHandler) (s : System) : System :=
  with_this s (set_wsListeners (this s) (wsListeners (this s) ++ [h])).

(** The closure returned by [addMessageListener h]. *)
Definition unsubscribe (h : WsEventHandler) (s : System) : System :=
  with_this s
    (set_wsListeners (this s)
       (filter (fun h' => negb (Nat.eqb (hid h') (hid h)))
          (wsListeners (this s)))).

(** *** Socket event handlers installed by [doConnect] *)

(** The open handler: [this.ws?.send(...)], then the counter is reset.
    [this.ws] is read when the event arrives: it is the socket that opened
    unless [doConnect] has run since that socket was constructed. When
    [send] throws, the handler is left before the reset. *)
Definition on_open (s : System) : System :=
  match ws (this s) with
  | Some sock =>
      match socket_send sock (authentication_challenge 1 (token (this s))) s with
      | Some s => with_this s (set_reconnectAttempts (this s) 0)
      | None => s
      end
  | None => with_this s (set_reconnectAttempts (this s) 0)
  end.

(** The [for (const handler of this.wsListeners) handler(event)] loop
    inside the [try]: a throw leaves the loop. The result is the outside
    state, the listeners invoked, and whether the loop was left by a
    throw. *)
Fixpoint dispatch (ev : MattermostWsEvent) (hs : list WsEventHandler)
    (o : Obs) : Obs * list nat * bool :=
  match hs with
  | [] => (o, [], false)
  | h :: rest =>
      let '(o1, threw) := handler h ev o in
      if threw then (o1, [hid h], true)
      else let '(o2, called, t) := dispatch ev rest o1 in
           (o2, hid h :: called, t)
  end.

Definition on_message (raw : string) (s : System) : System :=
  match JSON_parse raw with
  | Some ev =>
      let '(o, called, _) := dispatch ev (wsListeners (this s)) (outside s) in
      {| this := this s; sockets := sockets s; timeouts := timeouts s;
         outside := o;
         delivered := delivered s ++ map (fun i => (i, ev)) called |}
  | None => s   (* ignore parse errors *)
  end.

Definition on_close (s : System) : System :=
  if shouldReconnect (this s) then scheduleReconnect s else s.

Definition on_error (s : System) : System := s.

(** *** One step of the system *)

Inductive Input :=
| CallConnect
| CallDisconnect
| CallAddListener (h : WsEventHandler)
| CallUnsubscribe (h : WsEventHandler)
| SocketOpen (sock : SocketId)
| SocketMessage (sock : SocketId) (raw : string)
| SocketError (sock : SocketId)
| SocketClose (sock : SocketId)
| TimerExpired (t : TimerId).

(** [None]: the input cannot occur in this state (an event of a socket
    that does not exist or is past that event, a timeout that is not
    pending). A socket that was asked to close still emits the frames that
    arrive before its close event. *)
Definition step (s : System) (i : Input) : option System :=
  match i with
  | CallConnect => Some (connectWebSocket s)
  | CallDisconnect => Some (disconnectWebSocket s)
  | CallAddListener h => Some (addMessageListener h s)
  | CallUnsubscribe h => Some (unsubscribe h s)
  | SocketOpen sock =>
      if bool_decide (state_of sock s = Some CONNECTING)
      then Some (on_open (set_readyState sock OPEN s)) else None
  | SocketMessage sock raw =>
      match state_of sock s with
      | Some OPEN | Some CLOSING => Some (on_message raw s)
      | _ => None
      end
  | SocketError sock =>
      match state_of sock s with
      | Some CLOSED | None => None
      | Some _ => Some (on_error s)
      end
  | SocketClose sock =>
      match state_of sock s with
      | Some CLOSED | None => None
      | Some _ => Some (on_close (set_readyState sock CLOSED s))
      end
  | TimerExpired t =>
      if bool_decide (timerState <$> timeouts s !! t = Some Pending)
      then Some (doConnect
                   (with_timeouts s
                      (alter (fun k => {| delay := delay k;
                                          timerState := Fired |})
                         t (timeouts s))))
      else None
  end.

Fixpoint steps (s : System) (l : list Input) : option System :=
  match l with
  | [] => Some s
  | i :: rest =>
      match step s i with
      | Some s1 => steps s1 rest
      | None => None
      end
  end.

(** [new MattermostClient({serverUrl, token})] in a fresh runtime; the
    constructor strips trailing slashes from [serverUrl]. *)
Fixpoint strip_trailing_slashes (u : string) : string :=
  match u with
  | EmptyString => EmptyString
  | String c rest =>
      match strip_trailing_slashes rest with
      | EmptyString => if Ascii.eqb c "/" then EmptyString
                       else String c EmptyString
      | rest' => String c rest'
      end
  end.

Definition new_MattermostClient (serverUrl tok : string) : MattermostClient :=
  {| baseUrl := strip_trailing_slashes serverUrl; token := tok;
     ws := None; wsListeners := []; reconnectTimer := None;
     reconnectAttempts := 0; shouldReconnect := true |}.

Definition init (serverUrl tok : string) (o : Obs) : System :=
  {| this := new_MattermostClient serverUrl tok; sockets := [];
     timeouts := []; outside := o; delivered := [] |}.

(** *** Observations on runs *)

(** The delays of all timeouts set so far, oldest first. *)
Definition scheduled_delays (s : System) : list Z := map delay (timeouts s).

(** The timeouts that are still due. *)
Definition pending_timers (s : System) : list TimerId :=
  filter (fun t => timerState <$> timeouts s !! t = Some Pending)
    (seq 0 (length (timeouts s))).

Definition is_open (i : Input) : bool :=
  match i with SocketOpen _ => true | _ => false end.
Definition is_close (i : Input) : bool :=
  match i with SocketClose _ => true | _ => false end.
Definition is_connect (i : Input) : bool :=
  match i with CallConnect => true | _ => false end.
Definition is_disconnect (i : Input) : bool :=
  match i with CallDisconnect => true | _ => false end.

(** Unexpected closes only: no successful open and no explicit
    disconnect among the inputs. *)
Definition no_open_no_disconnect (l : list Input) : bool :=
  forallb (fun i => negb (is_open i || is_disconnect i)) l.

Fixpoint closes (l : list Input) : nat :=
  match l with
  | [] => 0
  | i :: rest => (if is_close i then 1 else 0) + closes rest
  end.

(** The delays of a backoff that starts at attempt [a] and makes [n]
    attempts. *)
Definition backoff (a n : nat) : list Z :=
  map (fun k => (reconnectBaseDelay * 2 ^ Z.of_nat k)%Z) (seq a n).

Definition no_connect (l : list Input) : bool :=
  forallb (fun i => negb (is_connect i)) l.

(** Every timeout that is still due is the one held in [reconnectTimer]. *)
Definition slot_holds_pending (s : System) : Prop :=
  forall t k, timeouts s !! t = Some k -> timerState k = Pending ->
              reconnectTimer (this s) = Some t.

(** No timeout is due. *)
Definition no_pending (s : System) : Prop :=
  Forall (fun k => timerState k <> Pending) (timeouts s).

(** Every socket has emitted its close event. *)
Definition no_live_socket (s : System) : Prop :=
  Forall (fun k => readyState k = CLOSED) (sockets s).

(** At most one socket has not yet emitted its close event. *)
Definition one_live_socket (s : System) : Prop :=
  forall a b x y, sockets s !! a = Some x -> readyState x <> CLOSED ->
                  sockets s !! b = Some y -> readyState y <> CLOSED -> a = b.

(** The shape of every state of a client whose [connectWebSocket] was
    called once: one socket or one timeout at a time, the timeout being
    the one in the slot. *)
Definition single_track (s : System) : Prop :=
  slot_holds_pending s /\ one_live_socket s /\
  (no_live_socket s \/ no_pending s).

(** Liveness of the sockets of [s'] is inherited from [s]. *)
Definition sockets_from (s s' : System) : Prop :=
  forall j z, sockets s' !! j = Some z -> readyState z <> CLOSED ->
              exists z0, sockets s !! j = Some z0 /\ readyState z0 <> CLOSED.

(** The inputs that register or remove a listener. *)
Definition changes_listeners (i : Input) : bool :=
  match i with CallAddListener _ | CallUnsubscribe _ => true | _ => false end.

(** A delay of the backoff schedule. *)
Definition backoff_delay (d : Z) : Prop :=
  exists k, (k < maxReconnectAttempts)%nat /\
            d = (reconnectBaseDelay * 2 ^ Z.of_nat k)%Z.

(** Every frame sent so far is the authentication challenge with [tok]. *)
Definition only_auth_frames (tok : string) (s : System) : Prop :=
  Forall (fun k => Forall (fun f => f = authentication_challenge 1 tok) (sent k))
    (sockets s).

(** *** REST helpers *)

Definition set_token (c : MattermostClient) (v : string) :=
  {| baseUrl := baseUrl c; token := v; ws := ws c;
     wsListeners := wsListeners c; reconnectTimer := reconnectTimer c;
     reconnectAttempts := reconnectAttempts c;
     shouldReconnect := shouldReconnect c |}.

(** The error thrown by [request] on a response that is not OK. *)
Definition request_error (method path : string) (res : FetchResponse) : Err :=
  "Mattermost API " +:+ method +:+ " " +:+ path +:+ " failed (" +:+
  status_text (status res) +:+ "): " +:+ text res.

(** [request(method, path, body)], given what [fetch] and then [res.json()]
    answer; the response body is parsed only when the response is OK. *)
Definition request {T : Type} (method path : string)
    (answer : Err + FetchResponse) (json : Err + T) : Err + T :=
  match answer with
  | inl e => inl e
  | inr res => if negb (ok res) then inl (request_error method path res)
               else json
  end.

(** [login(username, password)], given what [fetch] answers: the session
    token, and the client with the token stored. *)
Definition login (c : MattermostClient) (answer : Err + FetchResponse)
    : Err + (string * MattermostClient) :=
  match answer with
  | inl e => inl e
  | inr res =>
      if negb (ok res)
      then inl ("Login failed (" +:+ status_text (status res) +:+ "): " +:+
                text res)
      else match token_header res with
           | Some sessionToken =>
               if truthy sessionToken
               then inr (sessionToken, set_token c sessionToken)
               else inl "No token in login response headers"
           | None => inl "No token in login response headers"
           end
  end.

End WithListeners.

Arguments changes_listeners {Obs} _.
Arguments only_auth_frames {Obs} _ _.
Arguments set_token {Obs} _ _.
Arguments login {Obs} _ _.
Arguments no_live_socket {Obs} _.
Arguments one_live_socket {Obs} _.
Arguments single_track {Obs} _.
Arguments sockets_from {Obs} _ _.
Arguments no_connect {Obs} _.
Arguments slot_holds_pending {Obs} _.
Arguments no_pending {Obs} _.
Arguments scheduled_delays {Obs} _.
Arguments pending_timers {Obs} _.
Arguments is_open {Obs} _.
Arguments is_close {Obs} _.
Arguments is_connect {Obs} _.
Arguments is_disconnect {Obs} _.
Arguments no_open_no_disconnect {Obs} _.
Arguments closes {Obs} _.
Arguments hid {Obs} _.
Arguments handler {Obs} _ _ _.
Arguments baseUrl {Obs} _.
Arguments token {Obs} _.
Arguments ws {Obs} _.
Arguments wsListeners {Obs} _.
Arguments reconnectTimer {Obs} _.
Arguments reconnectAttempts {Obs} _.
Arguments shouldReconnect {Obs} _.
Arguments this {Obs} _.
Arguments sockets {Obs} _.
Arguments timeouts {Obs} _.
Arguments outside {Obs} _.
Arguments delivered {Obs} _.
Arguments with_this {Obs} _ _.
Arguments with_sockets {Obs} _ _.
Arguments with_timeouts {Obs} _ _.
Arguments set_ws {Obs} _ _.
Arguments set_wsListeners {Obs} _ _.
Arguments set_reconnectTimer {Obs} _ _.
Arguments set_reconnectAttempts {Obs} _ _.
Arguments set_shouldReconnect {Obs} _ _.
Arguments new_WebSocket {Obs} _ _.
Arguments socket_send {Obs} _ _ _.
Arguments socket_close {Obs} _ _.
Arguments set_readyState {Obs} _ _ _.
Arguments setTimeout {Obs} _ _.
Arguments clearTimeout {Obs} _ _.
Arguments wsUrl {Obs} _.
Arguments doConnect {Obs} _.
Arguments connectWebSocket {Obs} _.
Arguments scheduleReconnect {Obs} _.
Arguments disconnectWebSocket {Obs} _.
Arguments addMessageListener {Obs} _ _.
Arguments unsubscribe {Obs} _ _.
Arguments on_open {Obs} _.
Arguments dispatch {Obs} _ _ _.
Arguments on_message {Obs} _ _ _.
Arguments on_close {Obs} _.
Arguments on_error {Obs} _.
Arguments CallConnect {Obs}.
Arguments CallDisconnect {Obs}.
Arguments CallAddListener {Obs} _.
Arguments CallUnsubscribe {Obs} _.
Arguments SocketOpen {Obs} _.
Arguments SocketMessage {Obs} _ _.
Arguments SocketError {Obs} _.
Arguments SocketClose {Obs} _.
Arguments TimerExpired {Obs} _.
Arguments state_of {Obs} _ _.
Arguments step {Obs} _ _ _.
Arguments steps {Obs} _ _ _.
Arguments init {Obs} _ _ _.

End Client.

(** ** index.ts: how the plugin obtains and releases its client *)

Module Plugin.

Import Index.

(** The authentication fields of [MattermostConfig]. *)
Record AuthConfig := {
  serverUrl : option string;
  token : option string;
  username : option string;
  password : option string;
}.

(** The environment variables read as a fallback. *)
Record ProcessEnv := {
  MATTERMOST_TOKEN : option string;
  MATTERMOST_ACCESS_TOKEN : option string;
}.

(** A string-valued field or variable that is set and not empty. *)
Definition nonempty (o : option string) : option string :=
  match o with
  | Some s => if truthy s then Some s else None
  | None => None
  end.

(** [a || b] on optional strings. *)
Definition or_else (a b : option string) : option string :=
  match nonempty a with
  | Some s => Some s
  | None => b
  end.

Definition SERVER_URL_REQUIRED : Err :=
  "Mattermost serverUrl is required. Set channels.mattermost.serverUrl".
Definition AUTH_REQUIRED : Err :=
  "Mattermost auth required. Set token (PAT) or username+password in config, or set MATTERMOST_TOKEN env var.".

(** [resolveClient()]: the client for the configured credentials;
    [login_answer] is what [fetch] answers should a login be made. *)
Definition resolveClient (Obs : Type) (cfg : AuthConfig) (env : ProcessEnv)
    (login_answer : Err + Client.FetchResponse)
    : Err + Client.MattermostClient Obs :=
  match nonempty (serverUrl cfg) with
  | None => inl SERVER_URL_REQUIRED
  | Some url =>
      match nonempty (token cfg) with
      | Some pat => inr (Client.new_MattermostClient Obs url pat)
      | None =>
          match nonempty (username cfg), nonempty (password cfg) with
          | Some _, Some _ =>
              match Client.login (Client.new_MattermostClient Obs url "")
                      login_answer with
              | inl e => inl e
              | inr (_, mmClient) => inr mmClient
              end
          | _, _ =>
              (* Check env vars as fallback *)
              match nonempty (or_else (MATTERMOST_TOKEN env)
                                (MATTERMOST_ACCESS_TOKEN env)) with
              | Some envToken => inr (Client.new_MattermostClient Obs url envToken)
              | None => inl AUTH_REQUIRED
              end
          end
      end
  end.

(** What [shutdown()] does to the client, when there is one: the listener
    registered by [init] is removed, then the socket is disconnected. *)
Definition shutdown_connection {Obs : Type}
    (wsUnsub : option (Client.WsEventHandler Obs)) (s : Client.System Obs)
    : Client.System Obs :=
  Client.disconnectWebSocket
    (match wsUnsub with
     | Some h => Client.unsubscribe h s
     | None => s
     end).

(** What [init] does with a resolved client: it registers its handler and
    connects. *)
Definition start_connection {Obs : Type} (h : Client.WsEventHandler Obs)
    (s : Client.System Obs) : Client.System Obs :=
  Client.connectWebSocket (Client.addMessageListener h s).

End Plugin.

(** ** Sample data used by the closed examples *)

Module Samples.

Import Index.

Fixpoint replicate_char (n : nat) (c : ascii) : string :=
  match n with
  | O => EmptyString
  | S k => String c (replicate_char k c)
  end.

(** A response one unit longer than the limit. *)
Definition long_response : string :=
  replicate_char (Z.to_nat (MM_MSG_LIMIT + 1)) "a".

Definition allowlist_config (table : option (gmap string ChannelConfig))
    : MattermostConfig :=
  {| dmPolicy := None; groupPolicy := Some GroupAllowlist;
     channels := table; replyToMode := None |}.

Definition default_config : MattermostConfig :=
  {| dmPolicy := None; groupPolicy := None; channels := None;
     replyToMode := None |}.

Definition globals_of (cfg : MattermostConfig) (uname : string) : Globals :=
  {| ctx := Some {| has_logMessage := true |}; client := true;
     config := cfg; botUserId := "bot1"; botUsername := uname |}.

Definition town_entry : ChannelConfig :=
  {| allow := Some true; requireMention := Some true |}.
Definition town_table : gmap string ChannelConfig := {[ "town" := town_entry ]}.
Definition allowlist_globals : Globals :=
  globals_of (allowlist_config (Some town_table)) "wopr".

Definition post_from (sender body : string) : MattermostPost :=
  {| id := "post1"; user_id := sender; channel_id := "town";
     root_id := ""; message := body; type := "" |}.



Definition posted (ct : string) (p : MattermostPost) : MattermostWsEvent :=
  {| event := "posted"; data_post := Some (PostObject p);
     data_channel_type := Some ct |}.

(** A world in which every collaborator succeeds. *)
Definition all_succeed (c : Call) (w : unit) : (Err + Resp (kind c)) * unit :=
  (match c return Err + Resp (kind c) with
   | GetChannel _ => inr {| channel_type_of := "O" |}
   | GetUser u => inr {| username := "name-of-" +:+ u |}
   | CreatePost ch text _ =>
       inr {| id := "placeholder"; user_id := "bot1"; channel_id := ch;
              root_id := ""; message := text; type := "" |}
   | UpdatePost p text =>
       inr {| id := p; user_id := "bot1"; channel_id := "town";
              root_id := ""; message := text; type := "" |}
   | Inject _ _ _ _ => inr "AI response"
   | LogMessage _ _ _ _ => inr tt
   end, w).



(** The bot with the default configuration, before and after its
    identity is known. *)
Definition wopr : Globals := globals_of default_config "wopr".
Definition anonymous : Globals := globals_of default_config "".

(** A direct message from alice, and a post of the bot in an open channel. *)
Definition dm_from_alice : MattermostWsEvent :=
  posted "D" (post_from "alice" "hello @wopr").
Definition own_post : MattermostWsEvent :=
  posted "O" (post_from "bot1" "hello").

(** A client in a fresh runtime; listeners act on a counter. Every frame
    parses to the same event. *)
Definition fresh : Client.System nat :=
  Client.init "https://mattermost.example.com/" "test-token" 0.
Definition frame_event : MattermostWsEvent :=
  posted "O" (post_from "alice" "hi").
Definition parse_any (raw : string) : option MattermostWsEvent :=
  Some frame_event.

(** A listener that throws at once, and one that counts the events. *)
Definition thrower : Client.WsEventHandler nat :=
  {| Client.hid := 1; Client.handler := fun _ o => (o, true) |}.
Definition counter : Client.WsEventHandler nat :=
  {| Client.hid := 2; Client.handler := fun _ o => (S o, false) |}.

(** An outage: the connection is requested, and every socket closes before
    it opens; the reconnect timeout then expires and the next socket is
    tried. [outage n] holds [n] closes. *)
Fixpoint retries (k n : nat) : list (Client.Input nat) :=
  match n with
  | O => []
  | S m => Client.SocketClose k :: Client.TimerExpired k :: retries (S k) m
  end.

Definition outage (n : nat) : list (Client.Input nat) :=
  match n with
  | O => [Client.CallConnect]
  | S m => (Client.CallConnect :: retries 0 m ++ [Client.SocketClose m])%list
  end.

(** Two connects in a row, both sockets lost, then an explicit disconnect. *)
Definition double_connect_then_disconnect : list (Client.Input nat) :=
  [ Client.CallConnect; Client.CallConnect;
    Client.SocketClose 0; Client.SocketClose 1;
    Client.CallDisconnect ].

(** Built-ins for the closed examples: nothing parses, nothing is replaced. *)
Definition no_parse (raw : string) : option MattermostPost := None.
Definition no_replace (source s : string) : string := s.
Definition no_trim (s : string) : string := s.

(** A world in which the placeholder post is rejected, and one in which
    both lookups are. *)
Definition create_rejects (c : Call) (w : unit) : (Err + Resp (kind c)) * unit :=
  match c return (Err + Resp (kind c)) * unit with
  | CreatePost _ _ _ => (inl "post failed", w)
  | other => all_succeed other w
  end.

Definition lookups_reject (c : Call) (w : unit) : (Err + Resp (kind c)) * unit :=
  match c return (Err + Resp (kind c)) * unit with
  | GetChannel _ => (inl "no such channel", w)
  | GetUser _ => (inl "no such user", w)
  | other => all_succeed other w
  end.

(** A handler of "posted" events that rejects at once. *)
Definition always_rejects (ev : MattermostWsEvent) : Prog unit :=
  Throw "TypeError".

(** An event of another kind. *)
Definition typing : MattermostWsEvent :=
  {| event := "typing"; data_post := None; data_channel_type := None |}.

(** The same direct message without the channel-type hint. *)
Definition unhinted_from_alice : MattermostWsEvent :=
  posted "" (post_from "alice" "hello @wopr").

(** The calls of the posted-event handler in a given world. *)
Definition trace_of (oracle : forall c : Call, unit -> (Err + Resp (kind c)) * unit)
    (g : Globals) (ev : MattermostWsEvent) : list Entry :=
  fst (fst (run oracle (handlePostedEvent no_parse no_replace no_trim g ev) tt)).


(** The client after an outage that used up all reconnect attempts. *)
Definition exhausted : Client.System nat :=
  default fresh (Client.steps parse_any fresh (outage 11)).

(** A connection that is established, lost and re-established. *)
Definition reconnect_once : list (Client.Input nat) :=
  [ Client.SocketOpen 0; Client.SocketMessage 0 "frame"; Client.SocketClose 0;
    Client.TimerExpired 0; Client.SocketOpen 1; Client.SocketMessage 1 "frame" ].

(** What a socket may still do after it was asked to close: a frame that
    was on its way, an error, and the close event. *)
Definition late_frame : list (Client.Input nat) :=
  [ Client.SocketMessage 0 "frame"; Client.SocketError 0;
    Client.SocketClose 0 ].

(** Responses of the server to a login or a request. *)
Definition unauthorized : Client.FetchResponse :=
  {| Client.ok := false; Client.status := 401; Client.text := "Unauthorized";
     Client.token_header := None |}.
Definition logged_in : Client.FetchResponse :=
  {| Client.ok := true; Client.status := 200; Client.text := "";
     Client.token_header := Some "session-token-xyz" |}.

(** Configurations with a token, and with a username and a password. *)
Definition pat_config : Plugin.AuthConfig :=
  {| Plugin.serverUrl := Some "https://mm.example.com/";
     Plugin.token := Some "pat-token-123";
     Plugin.username := None; Plugin.password := None |}.
Definition password_config : Plugin.AuthConfig :=
  {| Plugin.serverUrl := Some "https://mm.example.com/";
     Plugin.token := None;
     Plugin.username := Some "wopr-bot"; Plugin.password := Some "password123" |}.
Definition env_with_token : Plugin.ProcessEnv :=
  {| Plugin.MATTERMOST_TOKEN := Some "env-token";
     Plugin.MATTERMOST_ACCESS_TOKEN := None |}.

End Samples.

(** * Properties of index.ts *)

Import Index.

(** ** Session keys *)

Lemma buildSessionKey_inj_pair c1 d1 c2 d2 :
  buildSessionKey c1 d1 = buildSessionKey c2 d2 -> c1 = c2 /\ d1 = d2.
Proof.
  unfold buildSessionKey.
  destruct d1, d2; intros H; cbv [String.append] in H;
    first [ discriminate H | injection H as ->; split; reflexivity ].
Qed.

(** C8. [buildSessionKey] is a function of (channelId, isDM) that is
    injective: equal pairs give equal keys, distinct channel ids give
    distinct keys under either flag, and a DM-form key never equals a
    channel-form key, whatever the two channel ids. *)
Theorem buildSessionKey_injective :
  (forall c d c' d', c = c' -> d = d' ->
     buildSessionKey c d = buildSessionKey c' d') /\
  (forall c c' d, c <> c' -> buildSessionKey c d <> buildSessionKey c' d) /\
  (forall c c', buildSessionKey c true <> buildSessionKey c' false).
Proof.
  split; [| split].
  - intros c d c' d' -> ->. reflexivity.
  - intros c c' d Hne Heq.
    apply buildSessionKey_inj_pair in Heq as [Hc _]. contradiction.
  - intros c c' Heq.
    apply buildSessionKey_inj_pair in Heq as [_ Hd]. discriminate Hd.
Qed.

Lemma buildSessionKey_injective_witness :
  buildSessionKey "town" true = buildSessionKey "town" true /\
  buildSessionKey "town" false <> buildSessionKey "square" false /\
  buildSessionKey "town" true <> buildSessionKey "square" true.
Proof.
  destruct buildSessionKey_injective as (Hfun & Hinj & _).
  split; [| split].
  - apply Hfun; reflexivity.
  - apply Hinj. discriminate.
  - apply Hinj. discriminate.
Defined.

(** ** Truncation of the response *)

Lemma length_append (s t : string) :
  String.length (s +:+ t) = (String.length s + String.length t)%nat.
Proof.
  induction s as [| c s IH]; [reflexivity |].
  change (S (String.length (s +:+ t)) = S (String.length s + String.length t)).
  now rewrite IH.
Qed.

Lemma length_substring_0 (n : nat) (s : string) :
  (n <= String.length s)%nat -> String.length (substring 0 n s) = n.
Proof.
  revert s. induction n as [| n IH]; intros s Hn.
  - destruct s; reflexivity.
  - destruct s as [| c s]; cbn in *; [lia |].
    rewrite IH; [reflexivity | lia].
Qed.

(** C9. A response strictly longer than [MM_MSG_LIMIT] is finalized to a
    text of exactly [MM_MSG_LIMIT] units: its first [MM_MSG_LIMIT - 3]
    units followed by "..."; a response within the limit is unchanged. *)
Theorem finalText_truncates (response : string) :
  ((MM_MSG_LIMIT < Z.of_nat (String.length response))%Z ->
     Z.of_nat (String.length (finalText response)) = MM_MSG_LIMIT /\
     finalText response =
       substring 0 (Z.to_nat (MM_MSG_LIMIT - 3)) response +:+ "...") /\
  ((Z.of_nat (String.length response) <= MM_MSG_LIMIT)%Z ->
     finalText response = response).
Proof.
  unfold finalText. split; intros H.
  - apply Z.ltb_lt in H as Hb. rewrite Hb. split; [| reflexivity].
    rewrite length_append, length_substring_0.
    + change (String.length "...") with 3%nat. unfold MM_MSG_LIMIT in *. lia.
    + unfold MM_MSG_LIMIT in *. lia.
  - assert (Hb : (MM_MSG_LIMIT <? Z.of_nat (String.length response))%Z = false)
      by (apply Z.ltb_ge; exact H).
    rewrite Hb. reflexivity.
Qed.

Lemma finalText_truncates_witness :
  (Z.of_nat (String.length (finalText Samples.long_response)) = MM_MSG_LIMIT /\
   finalText Samples.long_response =
     substring 0 (Z.to_nat (MM_MSG_LIMIT - 3)) Samples.long_response +:+ "...") /\
  finalText "AI response" = "AI response".
Proof.
  split.
  - apply (proj1 (finalText_truncates Samples.long_response)).
    vm_compute. reflexivity.
  - apply (proj2 (finalText_truncates "AI response")).
    vm_compute. discriminate.
Defined.

(** ** The admission scenarios of the plugin's unit tests *)

Example open_dm_policy_responds :
  shouldRespond Samples.wopr (Samples.post_from "alice" "hello") "D" false = true /\
  shouldRespond Samples.wopr (Samples.post_from "alice" "hello") "G" false = true.
Proof. split; reflexivity. Qed.

Example closed_dm_policy_rejects :
  shouldRespond
    (Samples.globals_of
       {| dmPolicy := Some DmClosed; groupPolicy := None; channels := None;
          replyToMode := None |} "wopr")
    (Samples.post_from "alice" "hello") "D" true = false.
Proof. reflexivity. Qed.

Example open_group_policy_needs_mention :
  shouldRespond Samples.wopr (Samples.post_from "alice" "hello") "O"
    (botMentioned Samples.wopr (Samples.post_from "alice" "hello")) = false /\
  shouldRespond Samples.wopr (Samples.post_from "alice" "hello @wopr") "O"
    (botMentioned Samples.wopr (Samples.post_from "alice" "hello @wopr")) = true.
Proof. split; reflexivity. Qed.

Example disabled_group_policy_never_responds :
  shouldRespond
    (Samples.globals_of
       {| dmPolicy := None; groupPolicy := Some GroupDisabled; channels := None;
          replyToMode := None |} "wopr")
    (Samples.post_from "alice" "hello @wopr") "O" true = false.
Proof. reflexivity. Qed.

(** ** Admission under the allowlist policy *)


(** ** The posted-event handler *)

Section HandlerFacts.

Variable JSON_parse : string -> option MattermostPost.
Variable RegExp_replace_gi : string -> string -> string.
Variable trim : string -> string.
Context {W : Type}.
Variable oracle : forall c : Call, W -> (Err + Resp (kind c)) * W.

Local Abbreviation handle :=
  (handlePostedEvent JSON_parse RegExp_replace_gi trim).

(** One step of a run under an arbitrary world: ask the oracle, or
    split on a test of the handler. *)
Ltac run_step H :=
  cbn [run bind try_catch await] in H;
  match type of H with
  | context [oracle ?c ?w] =>
      let r := fresh "r" in
      let w1 := fresh "w" in
      destruct (oracle c w) as [r w1]; destruct r
  | context [if ?b then _ else _] => destruct b eqn:?
  end.

Ltac run_all H :=
  unfold handlePostedEvent in H;
  repeat match type of H with
         | context [match ?x with Some _ => _ | None => _ end] =>
             destruct x eqn:?
         end;
  repeat run_step H;
  cbn [run bind try_catch await] in H;
  injection H as <- <- <-.








(** C10. With an empty bot username no post counts as a mention, the
    message text is not stripped, and every AI-inject call of the handler
    carries the body of the post as it came. *)
Theorem empty_botUsername_no_mention g :
  botUsername g = "" ->
  (forall post, botMentioned g post = false) /\
  (forall post, messageText RegExp_replace_gi trim g post = message post) /\
  (forall ev w tr out w',
     run oracle (handle g ev) w = (tr, out, w') ->
     forall e text, In e tr -> inject_text e = Some text ->
       exists post, postOf JSON_parse ev = Some post /\ text = message post).
Proof.
  intros Hname.
  assert (Hm : forall post,
             messageText RegExp_replace_gi trim g post = message post).
  { intros post. unfold messageText. rewrite Hname. reflexivity. }
  split; [| split; [exact Hm |]].
  - intros post. unfold botMentioned. rewrite Hname. reflexivity.
  - intros ev w tr out w' H.
    run_all H; intros entry text Hin Htext.
    all: repeat (destruct Hin as [<- | Hin]; [try discriminate Htext |]);
      try contradiction.
    all: injection Htext as <-; eexists; split; [reflexivity | apply Hm].
Qed.

End HandlerFacts.






Lemma empty_botUsername_no_mention_witness :
  botMentioned Samples.anonymous (Samples.post_from "alice" "hello @wopr")
    = false /\
  messageText Samples.no_replace Samples.no_trim Samples.anonymous
    (Samples.post_from "alice" "hello @wopr") = "hello @wopr" /\
  exists post,
    postOf Samples.no_parse Samples.dm_from_alice = Some post /\
    "hello @wopr" = message post.
Proof.
  destruct (empty_botUsername_no_mention Samples.no_parse Samples.no_replace
              Samples.no_trim Samples.all_succeed Samples.anonymous eq_refl)
    as (Hmention & Htext & Hinject).
  split; [apply Hmention | split; [apply Htext |]].
  refine (Hinject Samples.dm_from_alice tt _ _ _ eq_refl
            (Called (Inject "mattermost-dm-town" "hello @wopr" "name-of-alice"
                       "town") (inr "AI response")) "hello @wopr" _ _).
  - cbn. tauto.
  - reflexivity.
Defined.

(** * Properties of mattermost-client.ts *)

Import Client.


(** ** The scenarios of the client's unit tests *)

(** The socket goes to the streaming scheme of the server URL, without the
    trailing slash, and the authentication frame is sent on open. *)
Example connect_sends_authentication_challenge :
  (fun s => (fun k => (url k, sent k)) <$> sockets s !! 0%nat)
    <$> steps Samples.parse_any Samples.fresh [CallConnect; SocketOpen 0]
  = Some (Some ("wss://mattermost.example.com/api/v4/websocket",
                [authentication_challenge 1 "test-token"])).
Proof. reflexivity. Qed.

Example listener_receives_parsed_event :
  (fun s => (delivered s, outside s))
    <$> steps Samples.parse_any Samples.fresh
          [CallAddListener Samples.counter; CallConnect; SocketOpen 0;
           SocketMessage 0 "frame"]
  = Some ([(2%nat, Samples.frame_event)], 1%nat).
Proof. reflexivity. Qed.

Example unsubscribe_removes_handler :
  (fun s => (delivered s, outside s))
    <$> steps Samples.parse_any Samples.fresh
          [CallAddListener Samples.counter; CallConnect;
           CallUnsubscribe Samples.counter; SocketOpen 0;
           SocketMessage 0 "frame"]
  = Some ([], 0%nat).
Proof. reflexivity. Qed.

Example reconnect_on_unexpected_close :
  (fun s => (length (sockets s), scheduled_delays s))
    <$> steps Samples.parse_any Samples.fresh
          [CallConnect; SocketClose 0; TimerExpired 0]
  = Some (2%nat, [1000%Z]).
Proof. reflexivity. Qed.

Example no_reconnect_after_explicit_disconnect :
  (fun s => (length (sockets s), scheduled_delays s))
    <$> steps Samples.parse_any Samples.fresh
          [CallConnect; CallDisconnect; SocketClose 0]
  = Some (1%nat, []).
Proof. reflexivity. Qed.

(** A timeout cancelled by [disconnectWebSocket] never expires. *)
Example cancelled_timeout_cannot_expire :
  steps Samples.parse_any Samples.fresh
    [CallConnect; SocketClose 0; CallDisconnect; TimerExpired 0] = None.
Proof. reflexivity. Qed.

(** ** connect *)

(** C3 as stated fails: a second [connectWebSocket] on an open connection
    constructs a second socket and makes it the client's socket; the first
    one stays open. *)
Lemma connect_twice_opens_second_socket :
  (fun s => (ws (this s), map readyState (sockets s)))
    <$> steps Samples.parse_any Samples.fresh [CallConnect; SocketOpen 0]
  = Some (Some 0, [OPEN]) /\
  (fun s => (ws (this s), map readyState (sockets s)))
    <$> steps Samples.parse_any Samples.fresh
          [CallConnect; SocketOpen 0; CallConnect]
  = Some (Some 1, [OPEN; CONNECTING]).
Proof. split; reflexivity. Qed.

Section ClientFacts.

Context {Obs : Type}.
Variable JSON_parse : string -> option MattermostWsEvent.

Implicit Types (s : System Obs) (i : Input Obs) (l : list (Input Obs)).

Lemma map_alter_same {A B} (g : A -> B) (f : A -> A) (k : nat) (xs : list A) :
  (forall x, g (f x) = g x) -> map g (alter f k xs) = map g xs.
Proof.
  intros Hf. revert k. induction xs as [| x xs IH]; intros [| k]; cbn;
    try reflexivity.
  - now rewrite Hf.
  - f_equal. apply IH.
Qed.

Lemma scheduleReconnect_spec s :
  let a := reconnectAttempts (this s) in
  shouldReconnect (this (scheduleReconnect s)) = shouldReconnect (this s) /\
  if (a <? maxReconnectAttempts)%nat
  then reconnectAttempts (this (scheduleReconnect s)) = S a /\
       scheduled_delays (scheduleReconnect s) =
         (scheduled_delays s ++ [(reconnectBaseDelay * 2 ^ Z.of_nat a)%Z])%list
  else scheduleReconnect s = s.
Proof.
  cbn zeta. unfold scheduleReconnect.
  destruct (Nat.leb_spec maxReconnectAttempts (reconnectAttempts (this s)))
    as [Hge | Hlt].
  - apply Nat.ltb_ge in Hge as ->. split; reflexivity.
  - apply Nat.ltb_lt in Hlt as ->. cbn. unfold scheduled_delays. cbn.
    split; [reflexivity | split; [reflexivity |]].
    now rewrite List.map_app.
Qed.

Lemma step_message s sock raw s' :
  step JSON_parse s (SocketMessage sock raw) = Some s' ->
  s' = on_message JSON_parse raw s.
Proof.
  cbn [step]. destruct (state_of sock s) as [[]|]; try discriminate;
    intros [= <-]; reflexivity.
Qed.

(** What the open handler does: nothing when [send] throws; otherwise it
    resets the counter, after the frame went out on an OPEN [this.ws]. *)
Lemma on_open_cases s :
  on_open s = s \/
  on_open s = with_this s (set_reconnectAttempts (this s) 0) \/
  exists cur,
    ws (this s) = Some cur /\ state_of cur s = Some OPEN /\
    on_open s =
      with_this
        (with_sockets s
           (alter (fun k => {| url := url k; readyState := readyState k;
                               sent := sent k ++
                                 [authentication_challenge 1 (token (this s))] |})
              cur (sockets s)))
        (set_reconnectAttempts (this s) 0).
Proof.
  unfold on_open, socket_send.
  destruct (ws (this s)) as [cur |]; [| auto].
  destruct (state_of cur s) as [[]|] eqn:Hst; auto.
  right. right. exists cur. auto.
Qed.

Lemma state_of_set_readyState s sock r st :
  state_of sock s = Some st -> state_of sock (set_readyState sock r s) = Some r.
Proof.
  unfold state_of, set_readyState, SocketId in *. cbn [sockets with_sockets].
  rewrite list_lookup_alter_eq.
  destruct (sockets s !! sock) as [k |]; [intros _; reflexivity | discriminate].
Qed.

(** What an input other than a successful open or an explicit disconnect
    does to the reconnect bookkeeping of an armed client. *)
Lemma step_unexpected s i s' :
  step JSON_parse s i = Some s' ->
  is_open i = false -> is_disconnect i = false ->
  shouldReconnect (this s) = true ->
  shouldReconnect (this s') = true /\
  if is_close i && (reconnectAttempts (this s) <? maxReconnectAttempts)%nat
  then reconnectAttempts (this s') = S (reconnectAttempts (this s)) /\
       scheduled_delays s' =
         (scheduled_delays s ++
          [(reconnectBaseDelay * 2 ^ Z.of_nat (reconnectAttempts (this s)))%Z])%list
  else reconnectAttempts (this s') = reconnectAttempts (this s) /\
       scheduled_delays s' = scheduled_delays s.
Proof.
  intros Hstep Hopen Hdisc Harmed.
  destruct i; try discriminate; cbn [step is_close andb] in *.
  - injection Hstep as <-. cbn. unfold scheduled_delays. cbn. auto.
  - injection Hstep as <-. cbn. auto.
  - injection Hstep as <-. cbn. auto.
  - apply step_message in Hstep as ->.
    unfold on_message. destruct (JSON_parse raw); [| auto].
    destruct (dispatch _ _ _) as [[o called] t]. cbn. auto.
  - destruct (state_of sock s) as [[]|]; try discriminate;
      injection Hstep as <-; auto.
  - assert (Hs' : s' = on_close (set_readyState sock CLOSED s)).
    { destruct (state_of sock s) as [[]|]; try discriminate;
        injection Hstep as <-; reflexivity. }
    subst s'. unfold on_close.
    change (shouldReconnect (this (set_readyState sock CLOSED s)))
      with (shouldReconnect (this s)).
    rewrite Harmed.
    pose proof (scheduleReconnect_spec (set_readyState sock CLOSED s)) as H.
    cbn zeta in H.
    change (reconnectAttempts (this (set_readyState sock CLOSED s)))
      with (reconnectAttempts (this s)) in H.
    change (shouldReconnect (this (set_readyState sock CLOSED s)))
      with (shouldReconnect (this s)) in H.
    change (scheduled_delays (set_readyState sock CLOSED s))
      with (scheduled_delays s) in H.
    destruct H as [Hflag H]. rewrite Hflag. split; [exact Harmed |].
    destruct (reconnectAttempts (this s) <? maxReconnectAttempts)%nat;
      [exact H | rewrite H; auto].
  - case_bool_decide; [| discriminate]. injection Hstep as <-.
    cbn. unfold scheduled_delays. cbn. split; [exact Harmed |].
    split; [reflexivity |].
    apply map_alter_same. reflexivity.
Qed.

Lemma backoff_step (a n : nat) :
  ([(reconnectBaseDelay * 2 ^ Z.of_nat a)%Z] ++ backoff (S a) n)%list
  = backoff a (S n).
Proof. reflexivity. Qed.

(** A run of unexpected closes from attempt count [a]. *)
Lemma backoff_run l : forall s s',
  steps JSON_parse s l = Some s' ->
  no_open_no_disconnect l = true ->
  shouldReconnect (this s) = true ->
  (reconnectAttempts (this s) <= maxReconnectAttempts)%nat ->
  let a := reconnectAttempts (this s) in
  let a' := Nat.min (a + closes l) maxReconnectAttempts in
  reconnectAttempts (this s') = a' /\
  scheduled_delays s' = (scheduled_delays s ++ backoff a (a' - a))%list.
Proof.
  unfold maxReconnectAttempts.
  induction l as [| i l IH]; intros s s' Hsteps Hquiet Harmed Hle; cbn zeta.
  - injection Hsteps as <-. cbn [closes].
    replace (Nat.min (reconnectAttempts (this s) + 0) 10)
      with (reconnectAttempts (this s)) by lia.
    rewrite Nat.sub_diag. cbn. now rewrite app_nil_r.
  - cbn [steps] in Hsteps.
    destruct (step JSON_parse s i) as [s1 |] eqn:Hstep; [| discriminate].
    cbn [no_open_no_disconnect forallb] in Hquiet.
    apply andb_true_iff in Hquiet as [Hi Hquiet].
    apply negb_true_iff, orb_false_iff in Hi as [Hopen Hdisc].
    destruct (step_unexpected s i s1 Hstep Hopen Hdisc Harmed) as [Harmed1 H1].
    cbn [closes]. unfold maxReconnectAttempts in H1.
    assert (Hle1 : (reconnectAttempts (this s1) <= 10)%nat).
    { destruct (is_close i && (reconnectAttempts (this s) <? 10)%nat) eqn:Hc.
      - apply andb_true_iff in Hc as [_ Hlt]. apply Nat.ltb_lt in Hlt.
        destruct H1 as [-> _]. lia.
      - destruct H1 as [-> _]. exact Hle. }
    destruct (IH s1 s' Hsteps Hquiet Harmed1 Hle1) as [Ha' Hd'].
    cbn zeta in Ha', Hd'.
    destruct (is_close i); cbn [andb] in H1.
    + destruct (Nat.ltb_spec (reconnectAttempts (this s)) 10) as [Hlt | Hge];
        destruct H1 as [Ha1 Hd1]; rewrite Ha1 in Ha', Hd'; rewrite Hd1 in Hd'.
      * split.
        -- rewrite Ha'. f_equal. lia.
        -- rewrite Hd', <- app_assoc, backoff_step. do 2 f_equal. lia.
      * split.
        -- rewrite Ha'. lia.
        -- rewrite Hd'. do 2 f_equal. lia.
    + destruct H1 as [Ha1 Hd1]. rewrite Ha1 in Ha', Hd'. rewrite Hd1 in Hd'.
      split; [rewrite Ha' | rewrite Hd']; reflexivity.
Qed.

(** Only a successful open lowers the attempt counter. *)
Lemma step_attempts_monotone s i s' :
  step JSON_parse s i = Some s' -> is_open i = false ->
  (reconnectAttempts (this s) <= reconnectAttempts (this s'))%nat.
Proof.
  intros Hstep Hopen.
  destruct i; try discriminate; cbn [step] in Hstep.
  - injection Hstep as <-. cbn. lia.
  - injection Hstep as <-.
    destruct s as [[url0 tok sock listeners [t |] attempts armed] ? ? ? ?];
      destruct sock; cbn; lia.
  - injection Hstep as <-. cbn. lia.
  - injection Hstep as <-. cbn. lia.
  - apply step_message in Hstep as ->.
    unfold on_message. destruct (JSON_parse raw); [| lia].
    destruct (dispatch _ _ _) as [[o called] t]. cbn. lia.
  - destruct (state_of sock s) as [[]|]; try discriminate;
      injection Hstep as <-; unfold on_error; lia.
  - assert (Hs' : s' = on_close (set_readyState sock CLOSED s)).
    { destruct (state_of sock s) as [[]|]; try discriminate;
        injection Hstep as <-; reflexivity. }
    subst s'. unfold on_close.
    change (shouldReconnect (this (set_readyState sock CLOSED s)))
      with (shouldReconnect (this s)).
    destruct (shouldReconnect (this s)); [| cbn; lia].
    pose proof (scheduleReconnect_spec (set_readyState sock CLOSED s)) as H.
    cbn zeta in H.
    change (reconnectAttempts (this (set_readyState sock CLOSED s)))
      with (reconnectAttempts (this s)) in H.
    destruct H as [_ H].
    destruct (reconnectAttempts (this s) <? maxReconnectAttempts)%nat.
    + destruct H as [-> _]. lia.
    + rewrite H. cbn. lia.
  - case_bool_decide; [| discriminate]. injection Hstep as <-. cbn. lia.
Qed.

(** The open of the socket the client holds resets the counter. *)
Lemma step_open_resets s sock s' :
  step JSON_parse s (SocketOpen sock) = Some s' ->
  ws (this s) = Some sock ->
  reconnectAttempts (this s') = 0%nat.
Proof.
  cbn [step]. case_bool_decide as Hst; [| discriminate]. intros [= <-] Hws.
  unfold on_open, socket_send.
  change (ws (this (set_readyState sock OPEN s))) with (ws (this s)).
  rewrite Hws, (state_of_set_readyState s sock OPEN _ Hst). reflexivity.
Qed.

(** The open of any socket leaves the counter alone or resets it, and
    schedules nothing. *)
Lemma step_open_schedule s sock s' :
  step JSON_parse s (SocketOpen sock) = Some s' ->
  (reconnectAttempts (this s') = reconnectAttempts (this s) \/
   reconnectAttempts (this s') = 0%nat) /\
  scheduled_delays s' = scheduled_delays s.
Proof.
  cbn [step]. case_bool_decide as Hst; [| discriminate]. intros [= <-].
  destruct (on_open_cases (set_readyState sock OPEN s))
    as [-> | [-> | (cur & _ & _ & ->)]]; auto.
Qed.

(** C4. From attempt count zero (a fresh client, or the state right after
    a successful open), a run of inputs without a successful open or an
    explicit disconnect that contains [n] socket closes has scheduled
    exactly the delays base * 2^0, ..., base * 2^(min n 10 - 1), in this
    order: the (k+1)th delay is base * 2^k, and an 11th is never
    scheduled. No input other than a successful open lowers the attempt
    counter, and the open of the socket the client holds sets it to zero.
    (An open of a socket that the client has meanwhile replaced is another
    matter: the handler sends on [this.ws], and when that socket is still
    connecting the throw of [send] comes before the reset.) *)
Theorem reconnect_backoff :
  (forall s l s',
     reconnectAttempts (this s) = 0%nat ->
     shouldReconnect (this s) = true ->
     no_open_no_disconnect l = true ->
     steps JSON_parse s l = Some s' ->
     scheduled_delays s' =
       (scheduled_delays s ++
        backoff 0 (Nat.min (closes l) maxReconnectAttempts))%list) /\
  (forall s i s',
     step JSON_parse s i = Some s' -> is_open i = false ->
     (reconnectAttempts (this s) <= reconnectAttempts (this s'))%nat) /\
  (forall s sock s',
     step JSON_parse s (SocketOpen sock) = Some s' ->
     ws (this s) = Some sock ->
     reconnectAttempts (this s') = 0%nat).
Proof.
  split; [| split].
  - intros s l s' Hzero Harmed Hquiet Hsteps.
    destruct (backoff_run l s s' Hsteps Hquiet Harmed) as [_ Hd].
    { rewrite Hzero. unfold maxReconnectAttempts. lia. }
    cbn zeta in Hd. rewrite Hzero in Hd. cbn [Nat.add] in Hd.
    rewrite Nat.sub_0_r in Hd. exact Hd.
  - exact step_attempts_monotone.
  - exact step_open_resets.
Qed.

End ClientFacts.

Lemma reconnect_backoff_witness :
  (Client.scheduled_delays <$>
     steps Samples.parse_any Samples.fresh (Samples.outage 3))
    = Some [1000; 2000; 4000]%Z /\
  (Client.scheduled_delays <$>
     steps Samples.parse_any Samples.fresh (Samples.outage 11))
    = Some [1000; 2000; 4000; 8000; 16000; 32000; 64000; 128000; 256000;
            512000]%Z /\
  (reconnectAttempts (this Samples.fresh)
   <= reconnectAttempts (this (connectWebSocket Samples.fresh)))%nat /\
  reconnectAttempts
    (this (on_open (set_readyState 0 OPEN (connectWebSocket Samples.fresh))))
  = 0%nat.
Proof.
  destruct (@reconnect_backoff nat Samples.parse_any) as (Hrun & Hmono & Hopen).
  split; [| split; [| split]].
  - destruct (steps Samples.parse_any Samples.fresh (Samples.outage 3))
      as [s' |] eqn:Hsteps; [| vm_compute in Hsteps; discriminate Hsteps].
    cbn [fmap option_fmap option_map]. f_equal.
    apply (Hrun Samples.fresh (Samples.outage 3) s');
      [reflexivity | reflexivity | reflexivity | exact Hsteps].
  - destruct (steps Samples.parse_any Samples.fresh (Samples.outage 11))
      as [s' |] eqn:Hsteps; [| vm_compute in Hsteps; discriminate Hsteps].
    cbn [fmap option_fmap option_map]. f_equal.
    apply (Hrun Samples.fresh (Samples.outage 11) s');
      [reflexivity | reflexivity | reflexivity | exact Hsteps].
  - apply (Hmono Samples.fresh CallConnect); reflexivity.
  - apply (Hopen (connectWebSocket Samples.fresh) 0); reflexivity.
Defined.

(** The open of a replaced socket: after two connects in a row the first
    socket opens while [this.ws] is the second, still connecting; [send]
    throws, the counter keeps its value, and the next close is scheduled
    at the doubled delay. *)
Example open_of_replaced_socket_keeps_counter :
  (fun s => (reconnectAttempts (this s), scheduled_delays s))
    <$> steps Samples.parse_any Samples.fresh
          [CallConnect; SocketClose 0; CallConnect; CallConnect; SocketOpen 1;
           SocketClose 1]
  = Some (2%nat, [1000; 2000]%Z).
Proof. reflexivity. Qed.

Section ConnectionFacts.

Context {Obs : Type}.
Variable JSON_parse : string -> option MattermostWsEvent.

Implicit Types (s : System Obs) (i : Input Obs) (l : list (Input Obs)).

(** C3, as the code has it. [connectWebSocket] does the same in every
    state, connected or not: it arms the reconnect flag, constructs a new
    socket and makes it the client's socket. The sockets that existed
    stay as they were (none is closed), and the timeouts, the attempt
    counter, the timer slot and the listeners are untouched. *)
Theorem connectWebSocket_opens_new_socket s :
  shouldReconnect (this (connectWebSocket s)) = true /\
  ws (this (connectWebSocket s)) = Some (length (sockets s)) /\
  sockets (connectWebSocket s) =
    (sockets s ++
     [{| url := wsUrl (this s); readyState := CONNECTING; sent := [] |}])%list /\
  timeouts (connectWebSocket s) = timeouts s /\
  reconnectAttempts (this (connectWebSocket s)) = reconnectAttempts (this s) /\
  reconnectTimer (this (connectWebSocket s)) = reconnectTimer (this s) /\
  wsListeners (this (connectWebSocket s)) = wsListeners (this s).
Proof. repeat split; reflexivity. Qed.

(** ** Dispatch to listeners *)

Lemma dispatch_all_return ev (hs : list (WsEventHandler Obs)) :
  forall o,
    (forall h, In h hs -> forall o', snd (handler h ev o') = false) ->
    snd (fst (dispatch ev hs o)) = map hid hs /\
    snd (dispatch ev hs o) = false.
Proof.
  induction hs as [| h hs IH]; intros o Hret; [split; reflexivity |].
  cbn [dispatch].
  pose proof (Hret h (or_introl eq_refl) o) as Hh.
  destruct (handler h ev o) as [o1 threw]. cbn in Hh. subst threw.
  destruct (IH o1) as [Hcalled Hthrew].
  { intros h' Hin. apply Hret. right. exact Hin. }
  destruct (dispatch ev hs o1) as [[o2 called] t]. cbn in *.
  subst. split; reflexivity.
Qed.

Lemma dispatch_first_throw ev (pre : list (WsEventHandler Obs)) h post :
  forall o,
    (forall h', In h' pre -> forall o', snd (handler h' ev o') = false) ->
    (forall o', snd (handler h ev o') = true) ->
    snd (fst (dispatch ev (pre ++ h :: post) o)) = (map hid pre ++ [hid h])%list /\
    snd (dispatch ev (pre ++ h :: post) o) = true.
Proof.
  induction pre as [| p pre IH]; intros o Hret Hthrow.
  - cbn [app dispatch]. pose proof (Hthrow o) as Hh.
    destruct (handler h ev o) as [o1 threw]. cbn in Hh. subst threw.
    split; reflexivity.
  - cbn [app dispatch].
    pose proof (Hret p (or_introl eq_refl) o) as Hp.
    destruct (handler p ev o) as [o1 threw]. cbn in Hp. subst threw.
    destruct (IH o1) as [Hcalled Hthrew]; [| exact Hthrow |].
    { intros h' Hin. apply Hret. right. exact Hin. }
    destruct (dispatch ev (pre ++ h :: post) o1) as [[o2 called] t].
    cbn in *. subst. split; reflexivity.
Qed.

(** C2, as the code has it. For a frame that parses, the listeners are
    invoked with the event in registration order. If none throws, every
    listener receives it. If one throws, the loop is left: the listeners
    before it and the thrower itself have received the event, and the
    listeners registered after it do not receive it. In both cases the
    exception stays inside the message handler: the client and its
    runtime are as before. *)
Theorem on_message_stops_at_first_throw raw ev s :
  JSON_parse raw = Some ev ->
  ((forall h, In h (wsListeners (this s)) ->
      forall o, snd (handler h ev o) = false) ->
   delivered (on_message JSON_parse raw s) =
     (delivered s ++ map (fun h => (hid h, ev)) (wsListeners (this s)))%list) /\
  (forall pre h post,
     wsListeners (this s) = (pre ++ h :: post)%list ->
     (forall h', In h' pre -> forall o, snd (handler h' ev o) = false) ->
     (forall o, snd (handler h ev o) = true) ->
     delivered (on_message JSON_parse raw s) =
       (delivered s ++ map (fun h => (hid h, ev)) (pre ++ [h]))%list) /\
  this (on_message JSON_parse raw s) = this s /\
  sockets (on_message JSON_parse raw s) = sockets s /\
  timeouts (on_message JSON_parse raw s) = timeouts s.
Proof.
  intros Hparse. unfold on_message. rewrite Hparse.
  split; [| split].
  - intros Hret.
    destruct (dispatch_all_return ev (wsListeners (this s)) (outside s) Hret)
      as [Hcalled _].
    destruct (dispatch ev (wsListeners (this s)) (outside s))
      as [[o called] t]. cbn in *. subst called.
    now rewrite List.map_map.
  - intros pre h post Hls Hret Hthrow. rewrite Hls.
    destruct (dispatch_first_throw ev pre h post (outside s) Hret Hthrow)
      as [Hcalled _].
    destruct (dispatch ev (pre ++ h :: post) (outside s))
      as [[o called] t]. cbn in *. subst called.
    now rewrite List.map_app, List.map_app, !List.map_map.
  - destruct (dispatch ev (wsListeners (this s)) (outside s))
      as [[o called] t]. repeat split; reflexivity.
Qed.

End ConnectionFacts.

(** C2 as stated fails: with a throwing listener registered before a
    counting one, a frame reaches the thrower only; the counter is never
    invoked and still reads 0. *)
Lemma throwing_listener_starves_sibling :
  (fun s => (delivered s, outside s))
    <$> steps Samples.parse_any Samples.fresh
          [ CallAddListener Samples.thrower; CallAddListener Samples.counter;
            CallConnect; SocketOpen 0; SocketMessage 0 "frame" ]
  = Some ([(1, Samples.frame_event)], 0).
Proof. reflexivity. Qed.

Lemma on_message_stops_at_first_throw_witness :
  delivered
    (on_message Samples.parse_any "frame"
       (addMessageListener Samples.counter
          (addMessageListener Samples.thrower Samples.fresh)))
  = [(1, Samples.frame_event)] /\
  delivered
    (on_message Samples.parse_any "frame"
       (addMessageListener Samples.counter Samples.fresh))
  = [(2, Samples.frame_event)].
Proof.
  split.
  - destruct (@on_message_stops_at_first_throw nat Samples.parse_any "frame"
                Samples.frame_event
                (addMessageListener Samples.counter
                   (addMessageListener Samples.thrower Samples.fresh))
                eq_refl) as (_ & Hthrow & _).
    apply (Hthrow [] Samples.thrower [Samples.counter]).
    + reflexivity.
    + intros h' [].
    + reflexivity.
  - destruct (@on_message_stops_at_first_throw nat Samples.parse_any "frame"
                Samples.frame_event
                (addMessageListener Samples.counter Samples.fresh)
                eq_refl) as (Hall & _ & _).
    apply Hall. intros h [<- | []] o. reflexivity.
Defined.

(** ** disconnect *)

Section DisconnectFacts.

Context {Obs : Type}.
Variable JSON_parse : string -> option MattermostWsEvent.

Implicit Types (s : System Obs) (i : Input Obs) (l : list (Input Obs)).

(** An explicit disconnect on a client that is already disconnected
    changes nothing. *)
Lemma disconnect_when_disconnected s :
  shouldReconnect (this s) = false ->
  reconnectTimer (this s) = None ->
  ws (this s) = None ->
  disconnectWebSocket s = s.
Proof.
  destruct s as [[url0 tok sock listeners timer attempts armed] ? ? ? ?].
  cbn. intros -> -> ->. reflexivity.
Qed.

(** What [disconnectWebSocket] does: the flag is cleared, the timeout in
    the slot is cancelled and the slot emptied, the socket is asked to
    close and forgotten. *)
Lemma disconnectWebSocket_spec s :
  shouldReconnect (this (disconnectWebSocket s)) = false /\
  reconnectTimer (this (disconnectWebSocket s)) = None /\
  ws (this (disconnectWebSocket s)) = None /\
  length (sockets (disconnectWebSocket s)) = length (sockets s) /\
  timeouts (disconnectWebSocket s) =
    match reconnectTimer (this s) with
    | Some t => timeouts (clearTimeout t s)
    | None => timeouts s
    end.
Proof.
  destruct s as [[url0 tok sock listeners timer attempts armed] ? ? ? ?].
  destruct timer, sock; cbn; rewrite ?length_alter; repeat split.
Qed.

Lemma disconnect_quiesces s :
  slot_holds_pending s -> no_pending (disconnectWebSocket s).
Proof.
  intros Hslot. unfold no_pending.
  destruct (disconnectWebSocket_spec s) as (_ & _ & _ & _ & ->).
  apply Forall_lookup. intros j k Hj.
  destruct (reconnectTimer (this s)) as [t |] eqn:Hslot_t.
  - cbn in Hj. destruct (decide (t = j)) as [-> | Hne].
    + rewrite list_lookup_alter_eq in Hj.
      destruct (timeouts s !! j) as [k0 |]; [| discriminate].
      injection Hj as <-. cbn. destruct (timerState k0); discriminate.
    + rewrite list_lookup_alter_ne in Hj by exact Hne.
      intros Hp. specialize (Hslot j k Hj Hp). congruence.
  - intros Hp. specialize (Hslot j k Hj Hp). congruence.
Qed.

(** Once the flag is clear and no timeout is due, no input other than
    [connectWebSocket] constructs a socket or sets a timeout. *)
Lemma quiet_step s i s' :
  shouldReconnect (this s) = false -> no_pending s ->
  is_connect i = false ->
  step JSON_parse s i = Some s' ->
  shouldReconnect (this s') = false /\ no_pending s' /\
  length (sockets s') = length (sockets s).
Proof.
  intros Hflag Hpend Hconn Hstep.
  destruct i; try discriminate; cbn [step] in Hstep.
  - injection Hstep as <-.
    destruct (disconnectWebSocket_spec s) as (Hf & _ & _ & Hlen & Ht).
    split; [exact Hf | split; [| exact Hlen]].
    unfold no_pending. rewrite Ht.
    destruct (reconnectTimer (this s)); [| exact Hpend].
    cbn. apply Forall_alter; [exact Hpend |].
    intros k _ Hk. cbn. destruct (timerState k); congruence.
  - injection Hstep as <-. auto.
  - injection Hstep as <-. auto.
  - case_bool_decide; [| discriminate]. injection Hstep as <-.
    unfold no_pending.
    destruct (on_open_cases (set_readyState sock OPEN s))
      as [-> | [-> | (cur & _ & _ & ->)]]; cbn;
      rewrite ?length_alter; auto.
  - apply step_message in Hstep as ->.
    unfold on_message. destruct (JSON_parse raw); [| auto].
    destruct (dispatch _ _ _) as [[o called] t]. cbn. auto.
  - destruct (state_of sock s) as [[]|]; try discriminate;
      injection Hstep as <-; auto.
  - assert (Hs' : s' = on_close (set_readyState sock CLOSED s)).
    { destruct (state_of sock s) as [[]|]; try discriminate;
        injection Hstep as <-; reflexivity. }
    subst s'. unfold on_close.
    change (shouldReconnect (this (set_readyState sock CLOSED s)))
      with (shouldReconnect (this s)).
    rewrite Hflag. cbn. rewrite length_alter. auto.
  - case_bool_decide as Ht; [| discriminate]. exfalso.
    destruct (timeouts s !! t) as [k |] eqn:Hk; [| discriminate].
    injection Ht as Ht.
    exact (Forall_lookup_1 _ _ _ _ Hpend Hk Ht).
Qed.

Lemma quiet_steps l : forall s s',
  shouldReconnect (this s) = false -> no_pending s ->
  no_connect l = true ->
  steps JSON_parse s l = Some s' ->
  length (sockets s') = length (sockets s).
Proof.
  induction l as [| i l IH]; intros s s' Hflag Hpend Hquiet Hsteps.
  - injection Hsteps as <-. reflexivity.
  - cbn [steps] in Hsteps.
    destruct (step JSON_parse s i) as [s1 |] eqn:Hstep; [| discriminate].
    cbn [no_connect forallb] in Hquiet.
    apply andb_true_iff in Hquiet as [Hi Hquiet].
    apply negb_true_iff in Hi.
    destruct (quiet_step s i s1 Hflag Hpend Hi Hstep) as (Hf1 & Hp1 & Hlen).
    rewrite <- Hlen. apply (IH s1 s' Hf1 Hp1 Hquiet Hsteps).
Qed.

(** The part of C5 that holds: when the only timeout still due is the one
    in the timer slot, nothing after [disconnectWebSocket] constructs a
    socket until [connectWebSocket] is called. *)
Lemma disconnect_then_no_attempt s l s' :
  slot_holds_pending s ->
  no_connect l = true ->
  steps JSON_parse (disconnectWebSocket s) l = Some s' ->
  length (sockets s') = length (sockets s).
Proof.
  intros Hslot Hquiet Hsteps.
  destruct (disconnectWebSocket_spec s) as (Hflag & _ & _ & Hlen & _).
  rewrite <- Hlen.
  apply (quiet_steps l _ s' Hflag (disconnect_quiesces s Hslot) Hquiet Hsteps).
Qed.

Lemma lookup_alter_Some {A} (f : A -> A) (k j : nat) (xs : list A) (y : A) :
  alter f k xs !! j = Some y ->
  exists x, xs !! j = Some x /\ ((k = j /\ y = f x) \/ (k <> j /\ y = x)).
Proof.
  rewrite list_lookup_alter. case_decide as Hk.
  - subst j. destruct (xs !! k) as [x |]; [| discriminate].
    intros [= <-]. eauto.
  - intros H. eauto.
Qed.

Lemma no_pending_slot s : no_pending s -> slot_holds_pending s.
Proof.
  intros Hp t k Hk Hpend. exfalso.
  exact (Forall_lookup_1 _ _ _ _ Hp Hk Hpend).
Qed.

Lemma no_live_one s : no_live_socket s -> one_live_socket s.
Proof.
  intros Hn a b x y Ha Hx. exfalso.
  exact (Hx (Forall_lookup_1 _ _ _ _ Hn Ha)).
Qed.

Lemma one_live_from s s' :
  sockets_from s s' -> one_live_socket s -> one_live_socket s'.
Proof.
  intros Hfrom Huniq a b x y Ha Hx Hb Hy.
  destruct (Hfrom a x Ha Hx) as (x0 & Ha0 & Hx0).
  destruct (Hfrom b y Hb Hy) as (y0 & Hb0 & Hy0).
  exact (Huniq a b x0 y0 Ha0 Hx0 Hb0 Hy0).
Qed.

Lemma sockets_from_disconnect s : sockets_from s (disconnectWebSocket s).
Proof.
  intros j z.
  destruct s as [[url0 tok sock listeners timer attempts armed] ? ? ? ?].
  destruct timer, sock; cbn; eauto.
  all: intros Hz Hlive;
    apply lookup_alter_Some in Hz as (z0 & Hz0 & [[_ ->] | [_ ->]]);
    eauto; exists z0; split; [exact Hz0 |]; cbn in Hlive;
    destruct (readyState z0); congruence.
Qed.

Lemma sockets_from_open s sock :
  state_of sock s = Some CONNECTING ->
  sockets_from s (on_open (set_readyState sock OPEN s)).
Proof.
  intros Hst j z. unfold state_of in Hst.
  destruct (sockets s !! sock) as [k |] eqn:Hk; [| discriminate].
  injection Hst as Hst.
  assert (Hset : forall z1, sockets (set_readyState sock OPEN s) !! j = Some z1 ->
            exists z0, sockets s !! j = Some z0 /\ readyState z0 <> CLOSED
                       \/ sockets s !! j = Some z0 /\ z1 = z0).
  { unfold set_readyState. cbn [sockets with_sockets]. intros z1 Hz1.
    apply lookup_alter_Some in Hz1 as (z0 & Hz0 & [[<- ->] | [_ ->]]).
    - exists z0. left. split; [exact Hz0 |].
      pose proof (eq_trans (eq_sym Hk) Hz0) as E. injection E as <-.
      rewrite Hst. discriminate.
    - exists z0. right. split; [exact Hz0 | reflexivity]. }
  destruct (on_open_cases (set_readyState sock OPEN s))
    as [-> | [-> | (cur & _ & _ & ->)]]; cbn [sockets with_this with_sockets].
  - intros Hz Hlive.
    destruct (Hset z Hz) as (z0 & [[Hz0 Hl0] | [Hz0 ->]]); eauto.
  - intros Hz Hlive.
    destruct (Hset z Hz) as (z0 & [[Hz0 Hl0] | [Hz0 ->]]); eauto.
  - intros Hz Hlive.
    apply lookup_alter_Some in Hz as (z1 & Hz1 & Hcase).
    destruct (Hset z1 Hz1) as (z0 & [[Hz0 Hl0] | [Hz0 ->]]); [eauto |].
    exists z0. split; [exact Hz0 |].
    destruct Hcase as [[_ ->] | [_ ->]]; exact Hlive.
Qed.

Lemma single_track_step s i s' :
  single_track s -> is_connect i = false ->
  step JSON_parse s i = Some s' -> single_track s'.
Proof.
  intros (Hslot & Huniq & Hexcl) Hconn Hstep.
  destruct i; try discriminate; cbn [step] in Hstep.
  - (* disconnect *)
    injection Hstep as <-.
    pose proof (disconnect_quiesces s Hslot) as Hq.
    split; [apply no_pending_slot; exact Hq | split; [| right; exact Hq]].
    exact (one_live_from _ _ (sockets_from_disconnect s) Huniq).
  - injection Hstep as <-. split; [| split]; assumption.
  - injection Hstep as <-. split; [| split]; assumption.
  - (* open *)
    case_bool_decide as Hst; [| discriminate]. injection Hstep as <-.
    assert (Hp : no_pending s).
    { destruct Hexcl as [Hn | Hp]; [exfalso | exact Hp].
      unfold state_of in Hst.
      destruct (sockets s !! sock) as [k |] eqn:Hk; [| discriminate].
      injection Hst as Hst.
      pose proof (Forall_lookup_1 _ _ _ _ Hn Hk) as Hc. cbn in Hc. congruence. }
    assert (Hp' : no_pending (on_open (set_readyState sock OPEN s))).
    { destruct (on_open_cases (set_readyState sock OPEN s))
        as [-> | [-> | (cur & _ & _ & ->)]]; exact Hp. }
    split; [| split].
    + apply no_pending_slot. exact Hp'.
    + exact (one_live_from _ _ (sockets_from_open s sock Hst) Huniq).
    + right. exact Hp'.
  - apply step_message in Hstep as ->.
    unfold on_message. destruct (JSON_parse raw); [| split; [| split]; assumption].
    destruct (dispatch _ _ _) as [[o called] t]. split; [| split]; assumption.
  - destruct (state_of sock s) as [[]|]; try discriminate;
      injection Hstep as <-; (split; [| split]; assumption).
  - (* close *)
    assert (Hlive : exists k, sockets s !! sock = Some k /\ readyState k <> CLOSED).
    { unfold state_of in Hstep.
      destruct (sockets s !! sock) as [k |]; [| discriminate].
      exists k. split; [reflexivity |]. cbn in Hstep.
      destruct (readyState k); congruence. }
    destruct Hlive as (k & Hk & Hklive).
    assert (Hs' : s' = on_close (set_readyState sock CLOSED s)).
    { destruct (state_of sock s) as [[]|]; try discriminate;
        injection Hstep as <-; reflexivity. }
    subst s'. clear Hstep.
    assert (Hp : no_pending s).
    { destruct Hexcl as [Hn | Hp]; [exfalso | exact Hp].
      exact (Hklive (Forall_lookup_1 _ _ _ _ Hn Hk)). }
    assert (Hdead : no_live_socket (set_readyState sock CLOSED s)).
    { apply Forall_lookup. intros j z Hz. cbn in Hz.
      apply lookup_alter_Some in Hz as (z0 & Hz0 & [[_ ->] | [Hne ->]]);
        [reflexivity |].
      destruct (decide (readyState z0 = CLOSED)) as [Hc | Hl]; [exact Hc |].
      exfalso. apply Hne. exact (Huniq sock j k z0 Hk Hklive Hz0 Hl). }
    unfold on_close.
    change (shouldReconnect (this (set_readyState sock CLOSED s)))
      with (shouldReconnect (this s)).
    assert (Hkeep : single_track (set_readyState sock CLOSED s)).
    { split; [exact Hslot | split; [apply no_live_one; exact Hdead |]].
      left. exact Hdead. }
    destruct (shouldReconnect (this s)); [| exact Hkeep].
    unfold scheduleReconnect.
    destruct (maxReconnectAttempts <=?
              reconnectAttempts (this (set_readyState sock CLOSED s)))%nat;
      [exact Hkeep |].
    split; [| split; [apply no_live_one; exact Hdead | left; exact Hdead]].
    intros t0 k0 Ht0 Hpend. cbn in Ht0 |- *.
    apply lookup_app_Some in Ht0 as [Hold | [Hge Hnew]].
    + exfalso. exact (Forall_lookup_1 _ _ _ _ Hp Hold Hpend).
    + destruct (t0 - length (timeouts s))%nat eqn:Hd; [| discriminate Hnew].
      f_equal. lia.
  - (* a timeout expires *)
    case_bool_decide as Ht; [| discriminate]. injection Hstep as <-.
    destruct (timeouts s !! t) as [k |] eqn:Hk; [| discriminate].
    injection Ht as Ht.
    assert (Hdead : no_live_socket s).
    { destruct Hexcl as [Hn | Hp]; [exact Hn | exfalso].
      exact (Forall_lookup_1 _ _ _ _ Hp Hk Ht). }
    assert (Hp' : Forall (fun k => timerState k <> Pending)
                    (alter (fun k => {| delay := delay k; timerState := Fired |})
                       t (timeouts s))).
    { apply Forall_lookup. intros j z Hz.
      apply lookup_alter_Some in Hz as (z0 & Hz0 & [[_ ->] | [Hne ->]]);
        [discriminate |].
      intros Hpend. apply Hne.
      pose proof (Hslot t k Hk Ht) as H1.
      pose proof (Hslot j z0 Hz0 Hpend) as H2. congruence. }
    split; [apply no_pending_slot; exact Hp' | split; [| right; exact Hp']].
    intros a b x y Ha Hx Hb Hy. cbn in Ha, Hb.
    apply lookup_app_Some in Ha as [Hold | [Hge Hnew]];
      [exfalso; exact (Hx (Forall_lookup_1 _ _ _ _ Hdead Hold)) |].
    apply lookup_app_Some in Hb as [Hold | [Hge' Hnew']];
      [exfalso; exact (Hy (Forall_lookup_1 _ _ _ _ Hdead Hold)) |].
    destruct (a - length (sockets s))%nat eqn:Hd; [| discriminate Hnew].
    destruct (b - length (sockets s))%nat eqn:Hd'; [| discriminate Hnew'].
    lia.
Qed.

Lemma single_track_steps l : forall s s',
  single_track s -> no_connect l = true ->
  steps JSON_parse s l = Some s' -> single_track s'.
Proof.
  induction l as [| i l IH]; intros s s' Hinv Hquiet Hsteps.
  - injection Hsteps as <-. exact Hinv.
  - cbn [steps] in Hsteps.
    destruct (step JSON_parse s i) as [s1 |] eqn:Hstep; [| discriminate].
    cbn [no_connect forallb] in Hquiet.
    apply andb_true_iff in Hquiet as [Hi Hquiet].
    apply negb_true_iff in Hi.
    exact (IH s1 s' (single_track_step s i s1 Hinv Hi Hstep) Hquiet Hsteps).
Qed.

Lemma single_track_first_connect serverUrl tok (o : Obs) :
  single_track (connectWebSocket (init serverUrl tok o)).
Proof.
  split; [| split].
  - intros t k Hk. discriminate Hk.
  - intros [| a] [| b] x y Ha _ Hb _; try reflexivity; discriminate.
  - right. constructor.
Qed.

(** X22. With one [connectWebSocket] in the life of a client, nothing after
    [disconnectWebSocket] constructs a socket: whatever its sockets and
    timeouts do before and after the disconnect, the number of sockets
    constructed stays what it was when [disconnectWebSocket] was called. *)
Lemma single_connect_disconnect_is_final serverUrl tok (o : Obs) l1 l2 s1 s2 :
  no_connect l1 = true -> no_connect l2 = true ->
  steps JSON_parse (connectWebSocket (init serverUrl tok o)) l1 = Some s1 ->
  steps JSON_parse (disconnectWebSocket s1) l2 = Some s2 ->
  length (sockets s2) = length (sockets s1).
Proof.
  intros H1 H2 Hs1 Hs2.
  pose proof (single_track_steps l1 _ s1
                (single_track_first_connect serverUrl tok o) H1 Hs1)
    as (Hslot & _ & _).
  exact (disconnect_then_no_attempt s1 l2 s2 Hslot H2 Hs2).
Qed.

End DisconnectFacts.

(** C5 on the failing run: after two connects whose sockets are both lost,
    two reconnect timeouts are due and the slot holds the second one.
    [disconnectWebSocket] cancels that one only; the first expires after
    the disconnect has returned and constructs a third socket, with the
    reconnect flag still clear and no [connectWebSocket] in between. *)
Theorem disconnect_misses_overwritten_timer :
  (fun s => (ws (this s), shouldReconnect (this s), length (sockets s),
             pending_timers s))
    <$> steps Samples.parse_any Samples.fresh
          Samples.double_connect_then_disconnect
  = Some (None, false, 2%nat, [0%nat]) /\
  (fun s => (ws (this s), shouldReconnect (this s), length (sockets s),
             pending_timers s))
    <$> steps Samples.parse_any Samples.fresh
          (Samples.double_connect_then_disconnect ++ [TimerExpired 0])%list
  = Some (Some 2%nat, false, 3%nat, []).
Proof. split; vm_compute; reflexivity. Qed.

(** * Further properties of index.ts *)

(** ** Mention detection *)

Lemma append_cons (a : ascii) (s t : string) :
  String a s +:+ t = String a (s +:+ t).
Proof. reflexivity. Qed.

Lemma append_assoc (s t u : string) : (s +:+ t) +:+ u = s +:+ (t +:+ u).
Proof.
  induction s as [| a s IH]; [reflexivity |].
  rewrite !append_cons, IH. reflexivity.
Qed.

Lemma prefix_iff (needle hay : string) :
  String.prefix needle hay = true <-> exists rest, hay = needle +:+ rest.
Proof.
  revert hay. induction needle as [| a needle IH]; intros hay.
  - split; [intros _; exists hay; reflexivity | intros _; destruct hay; reflexivity].
  - destruct hay as [| b hay]; cbn [String.prefix].
    + split; [discriminate | intros [rest H]; discriminate H].
    + destruct (ascii_dec a b) as [<- | Hne].
      * rewrite IH. split; intros [rest H]; exists rest.
        -- rewrite append_cons, <- H. reflexivity.
        -- rewrite append_cons in H. injection H as ->. reflexivity.
      * split; [discriminate |]. intros [rest H].
        rewrite append_cons in H. injection H as <- _. contradiction.
Qed.

Lemma includes_iff (needle hay : string) :
  includes needle hay = true <->
  exists before after, hay = before +:+ needle +:+ after.
Proof.
  induction hay as [| b hay IH]; cbn [includes].
  - rewrite orb_false_r, prefix_iff. split.
    + intros [rest H]. exists "", rest. exact H.
    + intros (before & after & H). destruct before as [| c before].
      * exists after. exact H.
      * rewrite append_cons in H. discriminate H.
  - rewrite orb_true_iff, prefix_iff, IH. split.
    + intros [[rest H] | (before & after & H)].
      * exists "", rest. exact H.
      * exists (String b before), after. rewrite append_cons, <- H. reflexivity.
    + intros (before & after & H). destruct before as [| c before].
      * left. exists after. exact H.
      * right. rewrite append_cons in H. injection H as <- ->.
        exists before, after. reflexivity.
Qed.

(** X1. The bot counts as mentioned exactly when its username is known
    (non-empty) and the body contains "@" followed by the username as a
    literal substring: the match is case-sensitive and needs no word
    boundary, so a longer word that starts with the username counts. *)
Theorem botMentioned_iff_substring (g : Globals) (post : MattermostPost) :
  botMentioned g post = true <->
  botUsername g <> "" /\
  exists before after,
    message post = before +:+ ("@" +:+ botUsername g) +:+ after.
Proof.
  unfold botMentioned. destruct (botUsername g) as [| a name] eqn:Hname.
  - cbn [truthy]. split; [discriminate | intros [H _]; contradiction].
  - cbn [truthy]. rewrite includes_iff. split.
    + intros H. split; [discriminate | exact H].
    + intros [_ H]. exact H.
Qed.

(** ** Admission *)

(** X2. Mentioning the bot never costs a reply: a post that is answered
    without a mention is answered with one, whatever the configuration,
    the channel type and the post. *)
Theorem shouldRespond_mention_monotone (g : Globals) (post : MattermostPost)
    (channelType : string) :
  shouldRespond g post channelType false = true ->
  shouldRespond g post channelType true = true.
Proof.
  unfold shouldRespond.
  destruct (String.eqb (user_id post) (botUserId g)); [discriminate |].
  destruct (truthy (type post) && negb (String.eqb (type post) ""));
    [discriminate |].
  destruct (isDMChannel channelType); [intros H; exact H |].
  destruct (or_default (groupPolicy (config g)) GroupOpen);
    try discriminate.
  destruct (channels (config g)) as [table |]; [| discriminate].
  destruct (channel_entry table (channel_id post)) as [entry |];
    [| discriminate].
  destruct (bool_decide (allow entry = Some false)); [discriminate |].
  destruct (truthy_flag (requireMention entry)); [discriminate | reflexivity].
Qed.

Lemma shouldRespond_mention_monotone_witness :
  shouldRespond Samples.wopr (Samples.post_from "alice" "hello") "D" true = true.
Proof.
  apply shouldRespond_mention_monotone. reflexivity.
Defined.

(** X3. The two policies do not interfere. In a DM-like channel the verdict
    depends only on the sender, the type tag and the DM policy: the group
    policy, the channel table and the mention are not looked at. In any
    other channel the DM policy is not looked at. *)
Theorem shouldRespond_policies_separate (g g' : Globals)
    (post : MattermostPost) (channelType : string) :
  botUserId g = botUserId g' ->
  (isDMChannel channelType = true ->
   dmPolicy (config g) = dmPolicy (config g') ->
   forall m m', shouldRespond g post channelType m =
                shouldRespond g' post channelType m') /\
  (isDMChannel channelType = false ->
   groupPolicy (config g) = groupPolicy (config g') ->
   channels (config g) = channels (config g') ->
   forall m, shouldRespond g post channelType m =
             shouldRespond g' post channelType m).
Proof.
  intros Hbot. unfold shouldRespond. rewrite Hbot.
  split.
  - intros -> -> m m'. reflexivity.
  - intros -> -> -> m. reflexivity.
Qed.

Lemma shouldRespond_policies_separate_witness :
  (forall m m',
     shouldRespond Samples.wopr (Samples.post_from "alice" "hello") "D" m =
     shouldRespond Samples.allowlist_globals (Samples.post_from "alice" "hello")
       "D" m') /\
  (forall m,
     shouldRespond Samples.wopr (Samples.post_from "alice" "hello") "O" m =
     shouldRespond
       (Samples.globals_of
          {| dmPolicy := Some DmClosed; groupPolicy := None; channels := None;
             replyToMode := None |} "wopr")
       (Samples.post_from "alice" "hello") "O" m).
Proof.
  split.
  - apply (proj1 (shouldRespond_policies_separate Samples.wopr
                    Samples.allowlist_globals (Samples.post_from "alice" "hello")
                    "D" eq_refl)); reflexivity.
  - apply (proj2 (shouldRespond_policies_separate Samples.wopr
                    (Samples.globals_of
                       {| dmPolicy := Some DmClosed; groupPolicy := None;
                          channels := None; replyToMode := None |} "wopr")
                    (Samples.post_from "alice" "hello") "O" eq_refl));
      reflexivity.
Defined.

(** ** Threading of the reply *)



(** ** The finalized text *)

Lemma substring_0_split (n : nat) (s : string) :
  exists rest, s = substring 0 n s +:+ rest.
Proof.
  revert s. induction n as [| n IH]; intros s.
  - exists s. destruct s; reflexivity.
  - destruct s as [| c s]; [exists ""; reflexivity |].
    destruct (IH s) as [rest H]. exists rest.
    cbn [substring]. rewrite append_cons, <- H. reflexivity.
Qed.

(** X5. The finalized text never exceeds [MM_MSG_LIMIT] units, whatever
    the response; it is either the response itself or a head of the
    response followed by "..."; and finalizing twice changes nothing. *)
Theorem finalText_bounded (response : string) :
  (Z.of_nat (String.length (finalText response)) <= MM_MSG_LIMIT)%Z /\
  (finalText response = response \/
   exists head, String.prefix head response = true /\
                finalText response = head +:+ "...") /\
  finalText (finalText response) = finalText response.
Proof.
  assert (Hlen : (Z.of_nat (String.length (finalText response))
                  <= MM_MSG_LIMIT)%Z).
  { unfold finalText.
    destruct (Z.ltb_spec MM_MSG_LIMIT (Z.of_nat (String.length response)))
      as [Hlt | Hge]; [| exact Hge].
    rewrite length_append, length_substring_0;
      unfold MM_MSG_LIMIT in *; [| lia].
    change (String.length "...") with 3%nat. lia. }
  split; [exact Hlen | split].
  - unfold finalText.
    destruct (MM_MSG_LIMIT <? Z.of_nat (String.length response))%Z;
      [right | left; reflexivity].
    exists (substring 0 (Z.to_nat (MM_MSG_LIMIT - 3)) response).
    split; [| reflexivity].
    apply prefix_iff. apply substring_0_split.
  - unfold finalText at 1.
    apply Z.ltb_ge in Hlen. rewrite Hlen. reflexivity.
Qed.

(** ** What the posted-event handler does, in every world *)

Section ReplyFacts.

Variable JSON_parse : string -> option MattermostPost.
Variable RegExp_replace_gi : string -> string -> string.
Variable trim : string -> string.
Context {W : Type}.
Variable oracle : forall c : Call, W -> (Err + Resp (kind c)) * W.

Local Abbreviation handle :=
  (handlePostedEvent JSON_parse RegExp_replace_gi trim).

Ltac ask_oracle H :=
  cbn [run bind try_catch await] in H;
  match type of H with
  | context [oracle ?c ?w] =>
      let r := fresh "r" in
      let w1 := fresh "w" in
      destruct (oracle c w) as [r w1]; destruct r
  | context [if ?b then _ else _] => destruct b eqn:?
  end.

Ltac all_runs H :=
  unfold handlePostedEvent in H;
  repeat match type of H with
         | context [match ?x with Some _ => _ | None => _ end] =>
             destruct x eqn:?
         end;
  repeat ask_oracle H;
  cbn [run bind try_catch await] in H;
  injection H as <- <- <-.

Ltac pick_entry Hin Hobs :=
  cbn [In] in Hin;
  repeat match type of Hin with
         | _ \/ _ => destruct Hin as [<- | Hin]; [try discriminate Hobs |]
         end;
  try contradiction.

(** X6. When the placeholder post is rejected the event ends there: the
    failure is logged for the operator and nothing follows, so the AI is
    not called and nothing is edited; no reply call precedes it either. *)
Theorem placeholder_failure_ends_event g ev w tr out w' :
  run oracle (handle g ev) w = (tr, out, w') ->
  forall e, In e tr -> is_failed_create e = true ->
    exists before,
      tr = (before ++ [e; Logged "Failed to post thinking message:"])%list /\
      forallb (fun x => negb (is_reply_call x)) before = true.
Proof.
  intros H. all_runs H; intros entry Hin Hobs; pick_entry Hin Hobs.
  all: first [ exists []; split; reflexivity
             | eexists [_]; split; reflexivity
             | eexists [_; _]; split; reflexivity ].
Qed.

(** X7. What one event can cause, in every world: at most one placeholder
    post and at most one AI-inject call; never both a history-log entry
    and a reply; an AI-inject call only directly after the placeholder was
    posted successfully; and edits only of the placeholder this very event
    created. *)
Theorem reply_discipline g ev w tr out w' :
  run oracle (handle g ev) w = (tr, out, w') ->
  (count_entries is_create tr <= 1)%nat /\
  (count_entries is_inject tr <= 1)%nat /\
  (existsb is_log_message tr && existsb is_reply_call tr = false) /\
  (forall e, In e tr -> is_inject e = true ->
     exists before channelId root thinkingPost after,
       tr = (before ++
             Called (CreatePost channelId THINKING root) (inr thinkingPost)
             :: e :: after)%list) /\
  (forall e p, In e tr -> edit_target e = Some p ->
     exists channelId root thinkingPost,
       In (Called (CreatePost channelId THINKING root) (inr thinkingPost)) tr /\
       p = id thinkingPost).
Proof.
  intros H. all_runs H.
  all: split; [cbn; lia |]; split; [cbn; lia |]; split; [reflexivity |].
  all: split.
  all: try (intros entry Hin Hobs; pick_entry Hin Hobs;
            first [ exists []; eexists _, _, _, _; reflexivity
                  | eexists [_]; eexists _, _, _, _; reflexivity
                  | eexists [_; _]; eexists _, _, _, _; reflexivity ]).
  all: intros entry p Hin Hobs; pick_entry Hin Hobs.
  all: injection Hobs as <-.
  all: eexists _, _, _; split; [| reflexivity]; cbn [In]; auto 8.
Qed.


(** X9. The channel is looked up only when the event carries no channel
    type: with a non-empty hint [getChannel] is never called, and without
    one it is the first call of the event, made once, for the channel of
    the post. *)
Theorem channel_type_lookup g ev context post w tr out w' :
  ctx g = Some context -> client g = true ->
  postOf JSON_parse ev = Some post ->
  run oracle (handle g ev) w = (tr, out, w') ->
  (truthy (or_default (data_channel_type ev) "") = true ->
   existsb is_get_channel tr = false) /\
  (truthy (or_default (data_channel_type ev) "") = false ->
   exists r rest,
     tr = Called (GetChannel (channel_id post)) r :: rest /\
     existsb is_get_channel rest = false).
Proof.
  intros Hctx Hclient Hpost H.
  unfold handlePostedEvent in H. rewrite Hctx, Hclient, Hpost in H.
  repeat ask_oracle H.
  all: cbn [run bind try_catch await] in H; injection H as <- <- <-.
  all: split; intros Hhint; try discriminate Hhint; try reflexivity.
  all: eexists _, _; split; reflexivity.
Qed.

(** X10. Every AI-inject and history-log call is made for the channel of
    the post, under the session key built from that channel id and the
    resolved channel type: the hint of the event when it has one, the type
    answered by the channel lookup otherwise, and an open channel when the
    lookup is rejected, so that a direct message whose lookup fails is
    filed under the channel-form key. *)
Theorem session_key_follows_channel g ev w tr out w' :
  run oracle (handle g ev) w = (tr, out, w') ->
  forall e key, In e tr -> session_of e = Some key ->
    exists post,
      postOf JSON_parse ev = Some post /\
      channel_of e = Some (channel_id post) /\
      (truthy (or_default (data_channel_type ev) "") = true ->
       key = buildSessionKey (channel_id post)
               (isDMChannel (or_default (data_channel_type ev) ""))) /\
      (forall e0 ct, In e0 tr -> channel_answer e0 = Some ct ->
         key = buildSessionKey (channel_id post) (isDMChannel ct)) /\
      (existsb is_failed_get_channel tr = true ->
       key = buildSessionKey (channel_id post) false).
Proof.
  intros H. all_runs H; intros entry key Hin Hobs; pick_entry Hin Hobs.
  all: injection Hobs as <-.
  all: eexists; split; [reflexivity |]; split; [reflexivity |].
  all: split; [intros Hhint; try discriminate Hhint; try congruence; reflexivity |].
  all: split; [| intros Hf; try discriminate Hf; reflexivity].
  all: intros entry0 ctype Hin0 Hobs0; pick_entry Hin0 Hobs0.
  all: injection Hobs0 as <-; reflexivity.
Qed.

(** X11. The sender name handed to the AI-inject and the history-log
    collaborator is the username answered by the sender lookup; when the
    lookup is rejected, the handler goes on with the raw sender id. *)
Theorem sender_name_fallback g ev w tr out w' :
  run oracle (handle g ev) w = (tr, out, w') ->
  forall e name, In e tr -> from_of e = Some name ->
    exists post,
      postOf JSON_parse ev = Some post /\
      (forall e0 u, In e0 tr -> user_answer e0 = Some u -> name = u) /\
      (existsb is_failed_get_user tr = true -> name = user_id post).
Proof.
  intros H. all_runs H; intros entry name Hin Hobs; pick_entry Hin Hobs.
  all: injection Hobs as <-.
  all: eexists; split; [reflexivity |].
  all: split; [| intros Hf; try discriminate Hf; reflexivity].
  all: intros entry0 uname Hin0 Hobs0; pick_entry Hin0 Hobs0.
  all: injection Hobs0 as <-; reflexivity.
Qed.


(** What the rejection handler of [handleWsEvent] adds to a handler it is
    wrapped around, whatever that handler does: nothing when it returns,
    one log line when it throws; the result never throws. *)
Lemma run_catch_and_log (p : Prog unit) (line : string) :
  forall w,
    run oracle (try_catch p (fun _ => Log line (Ret tt))) w =
    (match snd (fst (run oracle p w)) with
     | inr _ => fst (fst (run oracle p w))
     | inl _ => (fst (fst (run oracle p w)) ++ [Logged line])%list
     end, inr tt, snd (run oracle p w)).
Proof.
  induction p as [[] | e | c k IH | l k IH]; intros w.
  - reflexivity.
  - reflexivity.
  - cbn [run try_catch]. destruct (oracle c w) as [r w1].
    rewrite (IH r w1).
    destruct (run oracle (k r) w1) as [[t o] w2]. cbn [fst snd].
    destruct o; reflexivity.
  - cbn [run try_catch]. rewrite (IH w).
    destruct (run oracle k w) as [[t o] w2]. cbn [fst snd].
    destruct o; reflexivity.
Qed.

(** X13. [handleWsEvent] never rejects, whatever the handler of "posted"
    events does. It does nothing for an event that is not "posted". For a
    "posted" event it makes the calls of the handler; should the handler
    reject, the rejection is caught: one line is logged for the operator
    and [handleWsEvent] returns normally all the same. The handler it
    wraps is [handlePostedEvent]. *)
Theorem handleWsEvent_never_rejects g ev w :
  (forall onPosted : MattermostWsEvent -> Prog unit,
     snd (fst (run oracle (dispatchWsEvent onPosted ev) w)) = inr tt /\
     (String.eqb (event ev) "posted" = false ->
      run oracle (dispatchWsEvent onPosted ev) w = ([], inr tt, w)) /\
     (String.eqb (event ev) "posted" = true ->
      forall tr out w',
        run oracle (onPosted ev) w = (tr, out, w') ->
        run oracle (dispatchWsEvent onPosted ev) w =
        (match out with
         | inr _ => tr
         | inl _ => (tr ++ [Logged "Error handling posted event:"])%list
         end, inr tt, w'))) /\
  handleWsEvent JSON_parse RegExp_replace_gi trim g ev =
    dispatchWsEvent (handle g) ev.
Proof.
  split; [| reflexivity].
  intros onPosted. unfold dispatchWsEvent.
  destruct (String.eqb (event ev) "posted").
  - rewrite run_catch_and_log. split; [reflexivity |].
    split; [discriminate |]. intros _ tr out w' H. rewrite H. reflexivity.
  - split; [reflexivity |]. split; [reflexivity | discriminate].
Qed.

End ReplyFacts.

Lemma placeholder_failure_ends_event_witness :
  exists before,
    Samples.trace_of Samples.create_rejects Samples.wopr Samples.dm_from_alice =
      (before ++ [ Called (CreatePost "town" THINKING None) (inl "post failed");
                   Logged "Failed to post thinking message:" ])%list /\
    forallb (fun x => negb (is_reply_call x)) before = true.
Proof.
  refine (placeholder_failure_ends_event Samples.no_parse Samples.no_replace
            Samples.no_trim Samples.create_rejects Samples.wopr
            Samples.dm_from_alice tt _ _ _ eq_refl
            (Called (CreatePost "town" THINKING None) (inl "post failed")) _ _).
  - cbn. tauto.
  - reflexivity.
Defined.

Lemma reply_discipline_witness :
  (count_entries is_create
     (Samples.trace_of Samples.all_succeed Samples.wopr Samples.dm_from_alice)
   <= 1)%nat /\
  (count_entries is_inject
     (Samples.trace_of Samples.all_succeed Samples.wopr Samples.dm_from_alice)
   <= 1)%nat /\
  (existsb is_log_message
     (Samples.trace_of Samples.all_succeed Samples.wopr Samples.dm_from_alice)
   && existsb is_reply_call
        (Samples.trace_of Samples.all_succeed Samples.wopr Samples.dm_from_alice)
   = false).
Proof.
  destruct (reply_discipline Samples.no_parse Samples.no_replace
              Samples.no_trim Samples.all_succeed Samples.wopr
              Samples.dm_from_alice tt _ _ _ eq_refl)
    as (Hcreate & Hinject & Hxor & _).
  split; [exact Hcreate | split; [exact Hinject | exact Hxor]].
Defined.


Lemma channel_type_lookup_witness :
  existsb is_get_channel
    (Samples.trace_of Samples.all_succeed Samples.wopr Samples.dm_from_alice)
  = false /\
  exists r rest,
    Samples.trace_of Samples.all_succeed Samples.wopr
      Samples.unhinted_from_alice
    = Called (GetChannel "town") r :: rest /\
    existsb is_get_channel rest = false.
Proof.
  split.
  - apply (proj1 (channel_type_lookup Samples.no_parse Samples.no_replace
                    Samples.no_trim Samples.all_succeed Samples.wopr
                    Samples.dm_from_alice {| has_logMessage := true |}
                    (Samples.post_from "alice" "hello @wopr") tt _ _ _
                    eq_refl eq_refl eq_refl eq_refl)).
    reflexivity.
  - apply (proj2 (channel_type_lookup Samples.no_parse Samples.no_replace
                    Samples.no_trim Samples.all_succeed Samples.wopr
                    Samples.unhinted_from_alice {| has_logMessage := true |}
                    (Samples.post_from "alice" "hello @wopr") tt _ _ _
                    eq_refl eq_refl eq_refl eq_refl)).
    reflexivity.
Defined.

Lemma session_key_follows_channel_witness :
  exists post,
    postOf Samples.no_parse Samples.unhinted_from_alice = Some post /\
    channel_of (Called (LogMessage "mattermost-channel-town" "hello @wopr"
                          "name-of-alice" "town") (inr tt))
      = Some (channel_id post) /\
    (truthy (or_default (data_channel_type Samples.unhinted_from_alice) "")
       = true ->
     "mattermost-channel-town" =
       buildSessionKey (channel_id post)
         (isDMChannel
            (or_default (data_channel_type Samples.unhinted_from_alice) ""))) /\
    (forall e0 ct,
       In e0 (Samples.trace_of Samples.all_succeed Samples.anonymous
                Samples.unhinted_from_alice) ->
       channel_answer e0 = Some ct ->
       "mattermost-channel-town" =
         buildSessionKey (channel_id post) (isDMChannel ct)) /\
    (existsb is_failed_get_channel
       (Samples.trace_of Samples.all_succeed Samples.anonymous
          Samples.unhinted_from_alice) = true ->
     "mattermost-channel-town" = buildSessionKey (channel_id post) false).
Proof.
  refine (session_key_follows_channel Samples.no_parse Samples.no_replace
            Samples.no_trim Samples.all_succeed Samples.anonymous
            Samples.unhinted_from_alice tt _ _ _ eq_refl
            (Called (LogMessage "mattermost-channel-town" "hello @wopr"
                       "name-of-alice" "town") (inr tt))
            "mattermost-channel-town" _ _).
  - cbn. tauto.
  - reflexivity.
Defined.

Lemma sender_name_fallback_witness :
  exists post,
    postOf Samples.no_parse Samples.dm_from_alice = Some post /\
    (forall e0 u,
       In e0 (Samples.trace_of Samples.lookups_reject Samples.wopr
                Samples.dm_from_alice) ->
       user_answer e0 = Some u -> "alice" = u) /\
    (existsb is_failed_get_user
       (Samples.trace_of Samples.lookups_reject Samples.wopr
          Samples.dm_from_alice) = true ->
     "alice" = user_id post).
Proof.
  refine (sender_name_fallback Samples.no_parse Samples.no_replace
            Samples.no_trim Samples.lookups_reject Samples.wopr
            Samples.dm_from_alice tt _ _ _ eq_refl
            (Called (Inject "mattermost-dm-town" "hello @wopr" "alice" "town")
               (inr "AI response")) "alice" _ _).
  - cbn. tauto.
  - reflexivity.
Defined.


Lemma handleWsEvent_never_rejects_witness :
  run Samples.all_succeed
    (dispatchWsEvent Samples.always_rejects Samples.own_post) tt =
  ([Logged "Error handling posted event:"], inr tt, tt) /\
  run Samples.all_succeed
    (handleWsEvent Samples.no_parse Samples.no_replace Samples.no_trim
       Samples.wopr Samples.typing) tt = ([], inr tt, tt).
Proof.
  destruct (handleWsEvent_never_rejects Samples.no_parse Samples.no_replace
              Samples.no_trim Samples.all_succeed Samples.wopr
              Samples.own_post tt) as [Hcatch _].
  destruct (handleWsEvent_never_rejects Samples.no_parse Samples.no_replace
              Samples.no_trim Samples.all_succeed Samples.wopr
              Samples.typing tt) as [Hother Hwraps].
  split.
  - apply (proj2 (proj2 (Hcatch Samples.always_rejects)) eq_refl
             [] (inl "TypeError") tt).
    reflexivity.
  - rewrite Hwraps.
    apply (proj1 (proj2 (Hother _))). reflexivity.
Defined.

(** * Further properties of mattermost-client.ts *)

(** ** The server URL *)

Lemma strip_cons (c : ascii) (u : string) :
  strip_trailing_slashes (String c u) =
  match strip_trailing_slashes u with
  | EmptyString => if Ascii.eqb c "/" then EmptyString else String c EmptyString
  | rest' => String c rest'
  end.
Proof. reflexivity. Qed.

Lemma strip_app_slash (u : string) :
  strip_trailing_slashes (u +:+ "/") = strip_trailing_slashes u.
Proof.
  induction u as [| c u IH]; [reflexivity |].
  rewrite append_cons, !strip_cons, IH. reflexivity.
Qed.

Lemma append_nil_r (s : string) : s +:+ "" = s.
Proof.
  induction s as [| c s IH]; [reflexivity |].
  rewrite append_cons, IH. reflexivity.
Qed.

Lemma replicate_slash_comm (n : nat) :
  "/" +:+ Samples.replicate_char n "/" = Samples.replicate_char n "/" +:+ "/".
Proof.
  induction n as [| n IH]; [reflexivity |].
  cbn [Samples.replicate_char]. rewrite !append_cons. rewrite <- IH. reflexivity.
Qed.

Lemma strip_split (u : string) :
  exists n, u = strip_trailing_slashes u +:+ Samples.replicate_char n "/".
Proof.
  induction u as [| c u [n IH]]; [exists 0%nat; reflexivity |].
  rewrite strip_cons.
  destruct (strip_trailing_slashes u) as [| d rest] eqn:Hs.
  - destruct (Ascii.eqb_spec c "/") as [-> | Hne].
    + exists (S n). rewrite IH at 1. reflexivity.
    + exists n. rewrite IH at 1. reflexivity.
  - exists n. rewrite IH at 1. reflexivity.
Qed.

Lemma strip_no_trailing_slash (u v : string) :
  strip_trailing_slashes u <> v +:+ "/".
Proof.
  revert v. induction u as [| c u IH]; intros v H.
  - destruct v; discriminate H.
  - rewrite strip_cons in H.
    destruct (strip_trailing_slashes u) as [| d rest] eqn:Hs.
    + destruct (Ascii.eqb_spec c "/") as [-> | Hne].
      * destruct v; discriminate H.
      * destruct v as [| a [| b v]]; try discriminate H.
        injection H as ->. contradiction.
    + destruct v as [| a v]; [discriminate H |].
      rewrite append_cons in H. injection H as _ H.
      exact (IH v H).
Qed.

Lemma strip_fixed (s : string) :
  (forall v, s <> v +:+ "/") -> strip_trailing_slashes s = s.
Proof.
  induction s as [| c s IH]; intros Hend; [reflexivity |].
  rewrite strip_cons.
  destruct s as [| d s'].
  - cbn. destruct (Ascii.eqb_spec c "/") as [-> | Hne]; [| reflexivity].
    exfalso. apply (Hend ""). reflexivity.
  - rewrite IH; [reflexivity |].
    intros v H. apply (Hend (String c v)). rewrite append_cons, <- H.
    reflexivity.
Qed.

(** X14. The constructor's normalization of the server URL removes the
    run of slashes at its end and nothing else: the URL is the stripped
    URL followed by slashes only, the stripped URL does not end in a
    slash, and stripping again changes nothing. *)
Theorem strip_trailing_slashes_spec (u : string) :
  (exists n, u = strip_trailing_slashes u +:+ Samples.replicate_char n "/") /\
  (forall v, strip_trailing_slashes u <> v +:+ "/") /\
  strip_trailing_slashes (strip_trailing_slashes u) = strip_trailing_slashes u.
Proof.
  split; [apply strip_split | split; [apply strip_no_trailing_slash |]].
  apply strip_fixed. apply strip_no_trailing_slash.
Qed.

(** X15. Trailing slashes in the configured server URL make no
    difference: the client built from a URL with any number of slashes
    appended connects exactly as the client built from the URL itself,
    to the same socket address. *)
Theorem trailing_slashes_do_not_matter {Obs : Type} (u tok : string) (n : nat)
    (o : Obs) :
  connectWebSocket (init (u +:+ Samples.replicate_char n "/") tok o) =
  connectWebSocket (init u tok o).
Proof.
  assert (H : strip_trailing_slashes (u +:+ Samples.replicate_char n "/")
              = strip_trailing_slashes u).
  { induction n as [| n IH]; [now rewrite append_nil_r |].
    change (Samples.replicate_char (S n) "/")
      with ("/" +:+ Samples.replicate_char n "/").
    rewrite replicate_slash_comm, <- append_assoc, strip_app_slash. exact IH. }
  unfold init, new_MattermostClient. rewrite H. reflexivity.
Qed.

Section MoreClientFacts.

Context {Obs : Type}.
Variable JSON_parse : string -> option MattermostWsEvent.

Implicit Types (s : System Obs) (i : Input Obs) (l : list (Input Obs))
  (h : WsEventHandler Obs).

Lemma filter_all {A} (P : A -> Prop) `{forall x, Decision (P x)} (xs : list A) :
  Forall P xs -> filter P xs = xs.
Proof.
  induction 1 as [| x xs Hx _ IH]; [reflexivity |].
  rewrite filter_cons_True by exact Hx. now rewrite IH.
Qed.

Lemma other_than_iff h h' :
  negb (Nat.eqb (hid h') (hid h)) <-> hid h' <> hid h.
Proof.
  rewrite negb_True, Is_true_true, Nat.eqb_eq. reflexivity.
Qed.

(** X16. The closure returned by [addMessageListener] removes by
    identity: afterwards exactly the listeners with another identity are
    left, so every registration of the same function goes at once; it
    undoes the registration when the function was not registered before;
    and calling it again changes nothing. *)
Theorem unsubscribe_removes_by_identity h s :
  (forall h', In h' (wsListeners (this (unsubscribe h s))) <->
              In h' (wsListeners (this s)) /\ hid h' <> hid h) /\
  ((forall h', In h' (wsListeners (this s)) -> hid h' <> hid h) ->
   wsListeners (this (unsubscribe h (addMessageListener h s)))
   = wsListeners (this s)) /\
  unsubscribe h (unsubscribe h s) = unsubscribe h s.
Proof.
  split; [| split].
  - intros h'. cbn. rewrite <- !list_elem_of_In, list_elem_of_filter.
    rewrite other_than_iff. tauto.
  - intros Hfresh. cbn. rewrite filter_app.
    rewrite filter_cons_False, filter_nil, app_nil_r.
    + apply filter_all. apply Forall_forall. intros h' Hin.
      apply other_than_iff, Hfresh. apply list_elem_of_In. exact Hin.
    + rewrite other_than_iff. intros Hne. apply Hne. reflexivity.
  - unfold unsubscribe, with_this, set_wsListeners. cbn. f_equal. f_equal.
    apply filter_all. apply Forall_forall. intros h' Hin.
    apply list_elem_of_filter in Hin as [Hp _]. exact Hp.
Qed.

(** What one input does to the reconnect bookkeeping: nothing, a reset on
    open, or one more scheduled attempt on a close. *)
Lemma step_schedule s i s' :
  step JSON_parse s i = Some s' ->
  (reconnectAttempts (this s') = reconnectAttempts (this s) /\
   scheduled_delays s' = scheduled_delays s) \/
  (is_open i = true /\ reconnectAttempts (this s') = 0%nat /\
   scheduled_delays s' = scheduled_delays s) \/
  (is_close i = true /\
   (reconnectAttempts (this s) < maxReconnectAttempts)%nat /\
   reconnectAttempts (this s') = S (reconnectAttempts (this s)) /\
   scheduled_delays s' =
     (scheduled_delays s ++
      [(reconnectBaseDelay * 2 ^ Z.of_nat (reconnectAttempts (this s)))%Z])%list).
Proof.
  intros Hstep.
  destruct (is_open i) eqn:Hopen.
  - destruct i; try discriminate Hopen.
    destruct (step_open_schedule JSON_parse s sock s' Hstep) as [[Ha | Ha] Hd];
      auto.
  - destruct (is_disconnect i) eqn:Hdisc.
    + destruct i; try discriminate Hdisc. left. injection Hstep as <-.
      destruct s as [[url0 tok sock listeners [t |] attempts armed] ? ? ? ?];
        destruct sock; cbn; split; try reflexivity;
        unfold scheduled_delays; cbn; apply map_alter_same; reflexivity.
    + destruct (shouldReconnect (this s)) eqn:Harmed.
      * destruct (step_unexpected JSON_parse s i s' Hstep Hopen Hdisc Harmed)
          as [_ H].
        destruct (is_close i); cbn [andb] in H; [| left; exact H].
        destruct (Nat.ltb_spec (reconnectAttempts (this s)) maxReconnectAttempts)
          as [Hlt | Hge]; [| left; exact H].
        right. right. destruct H as [Ha Hd]. auto.
      * left. destruct i; try discriminate; cbn [step] in Hstep.
        -- injection Hstep as <-. unfold scheduled_delays. cbn. auto.
        -- injection Hstep as <-. auto.
        -- injection Hstep as <-. auto.
        -- apply step_message in Hstep as ->.
           unfold on_message. destruct (JSON_parse raw); [| auto].
           destruct (dispatch _ _ _) as [[o called] t]. auto.
        -- destruct (state_of sock s) as [[]|]; try discriminate;
             injection Hstep as <-; auto.
        -- assert (Hs' : s' = on_close (set_readyState sock CLOSED s)).
           { destruct (state_of sock s) as [[]|]; try discriminate;
               injection Hstep as <-; reflexivity. }
           subst s'. unfold on_close.
           change (shouldReconnect (this (set_readyState sock CLOSED s)))
             with (shouldReconnect (this s)).
           rewrite Harmed. auto.
        -- case_bool_decide; [| discriminate]. injection Hstep as <-.
           split; [reflexivity |]. unfold scheduled_delays. cbn.
           apply map_alter_same. reflexivity.
Qed.

Lemma backoff_invariant l : forall s s',
  (reconnectAttempts (this s) <= maxReconnectAttempts)%nat ->
  Forall backoff_delay (scheduled_delays s) ->
  steps JSON_parse s l = Some s' ->
  (reconnectAttempts (this s') <= maxReconnectAttempts)%nat /\
  Forall backoff_delay (scheduled_delays s').
Proof.
  induction l as [| i l IH]; intros s s' Hle Hd Hsteps.
  - injection Hsteps as <-. auto.
  - cbn [steps] in Hsteps.
    destruct (step JSON_parse s i) as [s1 |] eqn:Hstep; [| discriminate].
    apply (IH s1 s'); [| | exact Hsteps];
      destruct (step_schedule s i s1 Hstep)
        as [[Ha Hs] | [(_ & Ha & Hs) | (_ & Hlt & Ha & Hs)]];
      rewrite ?Ha, ?Hs; try assumption; try lia.
    apply Forall_app. split; [exact Hd |].
    constructor; [| constructor]. exists (reconnectAttempts (this s)). auto.
Qed.

(** X17. Whatever happens to a client after its construction, the
    attempt counter never exceeds 10 and every reconnect delay ever
    scheduled is 1000 * 2^k ms for some k below 10, hence between one
    second and 512 seconds. *)
Theorem backoff_is_bounded serverUrl tok (o : Obs) l s' :
  steps JSON_parse (init serverUrl tok o) l = Some s' ->
  (reconnectAttempts (this s') <= maxReconnectAttempts)%nat /\
  Forall (fun d => exists k, (k < maxReconnectAttempts)%nat /\
                             d = (reconnectBaseDelay * 2 ^ Z.of_nat k)%Z)
    (scheduled_delays s') /\
  Forall (fun d => (1000 <= d <= 512000)%Z) (scheduled_delays s').
Proof.
  intros Hsteps.
  destruct (backoff_invariant l (init serverUrl tok o) s') as [Hle Hd];
    [cbn; unfold maxReconnectAttempts; lia | constructor | exact Hsteps |].
  split; [exact Hle | split; [exact Hd |]].
  eapply Forall_impl; [exact Hd |].
  intros d (k & Hk & ->). unfold maxReconnectAttempts, reconnectBaseDelay in *.
  assert (Hpow : (1 <= 2 ^ Z.of_nat k <= 2 ^ 9)%Z).
  { split; [apply (Z.pow_le_mono_r 2 0); lia | apply Z.pow_le_mono_r; lia]. }
  change (2 ^ 9)%Z with 512%Z in Hpow. lia.
Qed.

(** X18. Once the attempt counter has reached its maximum, nothing but a
    successful open brings the client back to retrying: until then no
    reconnect is scheduled, not even after [connectWebSocket] is called
    again and the new socket is lost. *)
Theorem exhausted_until_open s l s' :
  reconnectAttempts (this s) = maxReconnectAttempts ->
  forallb (fun i => negb (is_open i)) l = true ->
  steps JSON_parse s l = Some s' ->
  reconnectAttempts (this s') = maxReconnectAttempts /\
  scheduled_delays s' = scheduled_delays s.
Proof.
  revert s. induction l as [| i l IH]; intros s Hmax Hquiet Hsteps.
  - injection Hsteps as <-. auto.
  - cbn [steps] in Hsteps.
    destruct (step JSON_parse s i) as [s1 |] eqn:Hstep; [| discriminate].
    cbn [forallb] in Hquiet. apply andb_true_iff in Hquiet as [Hi Hquiet].
    apply negb_true_iff in Hi.
    destruct (step_schedule s i s1 Hstep)
      as [[Ha Hs] | [(Hopen & _) | (_ & Hlt & _)]];
      [| congruence | lia].
    destruct (IH s1) as [Ha' Hs']; [congruence | exact Hquiet | exact Hsteps |].
    split; [exact Ha' | congruence].
Qed.


Lemma step_keeps_identity s i s' :
  step JSON_parse s i = Some s' ->
  baseUrl (this s') = baseUrl (this s) /\ token (this s') = token (this s) /\
  (changes_listeners i = false ->
   wsListeners (this s') = wsListeners (this s)).
Proof.
  intros Hstep.
  destruct i; cbn [step changes_listeners] in *.
  - injection Hstep as <-. auto.
  - injection Hstep as <-.
    destruct s as [[url0 tok sock listeners [t |] attempts armed] ? ? ? ?];
      destruct sock; cbn; auto.
  - injection Hstep as <-. repeat split. discriminate.
  - injection Hstep as <-. repeat split. discriminate.
  - case_bool_decide; [| discriminate]. injection Hstep as <-.
    destruct (on_open_cases (set_readyState sock OPEN s))
      as [-> | [-> | (cur & _ & _ & ->)]]; auto.
  - apply step_message in Hstep as ->.
    unfold on_message. destruct (JSON_parse raw); [| auto].
    destruct (dispatch _ _ _) as [[o called] t]. auto.
  - destruct (state_of sock s) as [[]|]; try discriminate;
      injection Hstep as <-; auto.
  - assert (Hs' : s' = on_close (set_readyState sock CLOSED s)).
    { destruct (state_of sock s) as [[]|]; try discriminate;
        injection Hstep as <-; reflexivity. }
    subst s'. unfold on_close, scheduleReconnect.
    destruct (shouldReconnect (this (set_readyState sock CLOSED s))); [| auto].
    destruct (maxReconnectAttempts <=? _)%nat; auto.
  - case_bool_decide; [| discriminate]. injection Hstep as <-. auto.
Qed.

(** X19. Listeners belong to the client, not to a socket: connecting,
    disconnecting, socket events and reconnects leave the registered
    listeners as they are. *)
Theorem listeners_survive_reconnects l : forall s s',
  forallb (fun i => negb (changes_listeners i)) l = true ->
  steps JSON_parse s l = Some s' ->
  wsListeners (this s') = wsListeners (this s).
Proof.
  induction l as [| i l IH]; intros s s' Hquiet Hsteps.
  - injection Hsteps as <-. reflexivity.
  - cbn [steps] in Hsteps.
    destruct (step JSON_parse s i) as [s1 |] eqn:Hstep; [| discriminate].
    cbn [forallb] in Hquiet. apply andb_true_iff in Hquiet as [Hi Hquiet].
    apply negb_true_iff in Hi.
    destruct (step_keeps_identity s i s1 Hstep) as (_ & _ & Hl).
    rewrite <- (Hl Hi). exact (IH s1 s' Hquiet Hsteps).
Qed.

Lemma Forall_alter_sent (P : Socket -> Prop) (f : Socket -> Socket) k
    (xs : list Socket) :
  Forall P xs -> (forall x, P x -> P (f x)) -> Forall P (alter f k xs).
Proof. intros Hxs Hf. apply Forall_alter; [exact Hxs |]. intros x _. apply Hf. Qed.

Lemma step_only_auth_frames tok s i s' :
  token (this s) = tok -> only_auth_frames tok s ->
  step JSON_parse s i = Some s' -> only_auth_frames tok s'.
Proof.
  unfold only_auth_frames. intros Htok Hinv Hstep.
  destruct i; cbn [step] in Hstep.
  - injection Hstep as <-. cbn. apply Forall_app. split; [exact Hinv |].
    constructor; [constructor | constructor].
  - injection Hstep as <-.
    destruct s as [[url0 tok0 sock listeners [t |] attempts armed] ? ? ? ?];
      destruct sock; cbn in *; try exact Hinv;
      apply Forall_alter_sent; auto.
  - injection Hstep as <-. exact Hinv.
  - injection Hstep as <-. exact Hinv.
  - case_bool_decide; [| discriminate]. injection Hstep as <-.
    assert (Hset : Forall (fun k => Forall (fun f => f = authentication_challenge 1 tok) (sent k))
                     (sockets (set_readyState sock OPEN s))).
    { cbn. apply Forall_alter_sent; auto. }
    destruct (on_open_cases (set_readyState sock OPEN s))
      as [-> | [-> | (cur & _ & _ & ->)]]; try exact Hset.
    change (token (this (set_readyState sock OPEN s))) with (token (this s)).
    cbn. apply Forall_alter_sent; [exact Hset |].
    intros x Hx. cbn. apply Forall_app. split; [exact Hx |].
    constructor; [congruence | constructor].
  - apply step_message in Hstep as ->.
    unfold on_message. destruct (JSON_parse raw); [| exact Hinv].
    destruct (dispatch _ _ _) as [[o called] t]. exact Hinv.
  - destruct (state_of sock s) as [[]|]; try discriminate;
      injection Hstep as <-; exact Hinv.
  - assert (Hs' : s' = on_close (set_readyState sock CLOSED s)).
    { destruct (state_of sock s) as [[]|]; try discriminate;
        injection Hstep as <-; reflexivity. }
    subst s'.
    assert (Hset : Forall (fun k => Forall (fun f => f = authentication_challenge 1 tok) (sent k))
                     (sockets (set_readyState sock CLOSED s))).
    { cbn. apply Forall_alter_sent; auto. }
    unfold on_close, scheduleReconnect.
    destruct (shouldReconnect (this (set_readyState sock CLOSED s)));
      [| exact Hset].
    destruct (maxReconnectAttempts <=? _)%nat; exact Hset.
  - case_bool_decide; [| discriminate]. injection Hstep as <-.
    cbn. apply Forall_app. split; [exact Hinv |].
    constructor; [constructor | constructor].
Qed.

(** X20. The token of a client never changes while it runs, and the only
    frames it ever sends, on any of its sockets, are authentication
    challenges with sequence number 1 carrying that token. *)
Theorem client_sends_only_its_token serverUrl tok (o : Obs) l s' :
  steps JSON_parse (init serverUrl tok o) l = Some s' ->
  token (this s') = tok /\
  Forall (fun k => Forall (fun f => f = authentication_challenge 1 tok) (sent k))
    (sockets s').
Proof.
  assert (Hgen : forall l s s',
            token (this s) = tok -> only_auth_frames tok s ->
            steps JSON_parse s l = Some s' ->
            token (this s') = tok /\ only_auth_frames tok s').
  { clear. induction l as [| i l IH]; intros s s' Htok Hinv Hsteps.
    - injection Hsteps as <-. auto.
    - cbn [steps] in Hsteps.
      destruct (step JSON_parse s i) as [s1 |] eqn:Hstep; [| discriminate].
      apply (IH s1 s'); [| | exact Hsteps].
      + destruct (step_keeps_identity s i s1 Hstep) as (_ & Ht & _). congruence.
      + exact (step_only_auth_frames tok s i s1 Htok Hinv Hstep). }
  intros Hsteps. apply (Hgen l (init serverUrl tok o) s'); [reflexivity | | exact Hsteps].
  constructor.
Qed.

(** X21. A client whose [connectWebSocket] is called once never has two
    sockets alive at a time, never has a reconnect pending while a socket
    is alive, and keeps every pending reconnect in its timer slot. *)
Theorem single_connect_one_socket_at_a_time serverUrl tok (o : Obs) l s' :
  no_connect l = true ->
  steps JSON_parse (connectWebSocket (init serverUrl tok o)) l = Some s' ->
  one_live_socket s' /\
  (no_live_socket s' \/ no_pending s') /\
  slot_holds_pending s'.
Proof.
  intros Hquiet Hsteps.
  destruct (single_track_steps JSON_parse l _ s'
              (single_track_first_connect serverUrl tok o) Hquiet Hsteps)
    as (Hslot & Hone & Hexcl).
  auto.
Qed.

(** X23. [disconnectWebSocket] is idempotent, and it touches neither the
    attempt counter, nor the listeners, nor the delays scheduled so far,
    nor any socket other than the one the client holds. *)
Theorem disconnect_is_idempotent s :
  disconnectWebSocket (disconnectWebSocket s) = disconnectWebSocket s /\
  reconnectAttempts (this (disconnectWebSocket s)) = reconnectAttempts (this s) /\
  wsListeners (this (disconnectWebSocket s)) = wsListeners (this s) /\
  scheduled_delays (disconnectWebSocket s) = scheduled_delays s /\
  (forall k, ws (this s) <> Some k ->
             sockets (disconnectWebSocket s) !! k = sockets s !! k).
Proof.
  split.
  - destruct (disconnectWebSocket_spec s) as (Hf & Ht & Hw & _).
    apply disconnect_when_disconnected; assumption.
  - destruct s as [[url0 tok sock listeners [t |] attempts armed] ? ? ? ?];
      destruct sock as [cur |]; cbn; repeat split;
      try (unfold scheduled_delays; cbn; apply map_alter_same; reflexivity);
      intros k Hk; try reflexivity;
      apply list_lookup_alter_ne; congruence.
Qed.

End MoreClientFacts.

(** ** REST requests and login *)

Lemma includes_intro (before needle after : string) :
  includes needle (before +:+ needle +:+ after) = true.
Proof. apply includes_iff. exists before, after. reflexivity. Qed.

(** X24. A response that is not OK makes [request] reject without
    reading the JSON body, and the error names the method, the path and
    the status in decimal and ends with the text of the response. *)
Theorem request_error_is_descriptive {T : Type} (method path : string)
    (res : FetchResponse) (json : Err + T) :
  ok res = false ->
  exists msg,
    request method path (inr res) json = inl msg /\
    includes method msg = true /\
    includes path msg = true /\
    includes (status_text (status res)) msg = true /\
    exists head, msg = head +:+ text res.
Proof.
  intros Hok. exists (request_error method path res).
  split; [unfold request; rewrite Hok; reflexivity |].
  unfold request_error. repeat split.
  - apply includes_intro.
  - apply includes_iff.
    exists ("Mattermost API " +:+ method +:+ " "),
           (" failed (" +:+ status_text (status res) +:+ "): " +:+ text res).
    rewrite !append_assoc. reflexivity.
  - apply includes_iff.
    exists ("Mattermost API " +:+ method +:+ " " +:+ path +:+ " failed ("),
           ("): " +:+ text res).
    rewrite !append_assoc. reflexivity.
  - exists ("Mattermost API " +:+ method +:+ " " +:+ path +:+ " failed (" +:+
            status_text (status res) +:+ "): ").
    rewrite !append_assoc. reflexivity.
Qed.

Section LoginFacts.
Context {Obs : Type}.

Lemma login_success (c : MattermostClient Obs) (answer : Err + FetchResponse)
    sessionToken c' :
  login c answer = inr (sessionToken, c') <->
  exists res, answer = inr res /\ ok res = true /\
              token_header res = Some sessionToken /\
              sessionToken <> "" /\ c' = set_token c sessionToken.
Proof.
  unfold login. split.
  - destruct answer as [e | res]; [discriminate |].
    destruct (ok res) eqn:Hok; [| discriminate]. cbn [negb].
    destruct (token_header res) as [tk |] eqn:Hh; [| discriminate].
    destruct tk as [| a tk]; [discriminate |]. cbn [truthy].
    intros [= <- <-]. exists res. repeat split; try assumption. discriminate.
  - intros (res & -> & Hok & Hh & Hne & ->). rewrite Hok, Hh. cbn [negb].
    destruct sessionToken; [contradiction | reflexivity].
Qed.

(** X25. [login] succeeds exactly when the response is OK and carries a
    non-empty [token] header; the session token returned is that header
    and it is stored as the client's token, everything else of the client
    staying as it was. On a response that is not OK the error carries the
    status and ends with the response text. *)
Theorem login_outcome (c : MattermostClient Obs) (answer : Err + FetchResponse) :
  (forall sessionToken c',
     login c answer = inr (sessionToken, c') <->
     exists res, answer = inr res /\ ok res = true /\
                 token_header res = Some sessionToken /\
                 sessionToken <> "" /\ c' = set_token c sessionToken) /\
  (forall res, answer = inr res -> ok res = false ->
     exists head, login c answer = inl (head +:+ text res) /\
                  includes (status_text (status res)) head = true).
Proof.
  split; [apply login_success |].
  intros res -> Hok. unfold login. rewrite Hok. cbn [negb].
  exists ("Login failed (" +:+ status_text (status res) +:+ "): ").
  split; [rewrite !append_assoc; reflexivity |].
  apply includes_intro.
Qed.

(** X26. Whatever credentials [resolveClient] picks, a client it returns
    is freshly constructed for the configured server URL, with the
    trailing slashes of the URL removed, and carries a non-empty token. *)
Theorem resolveClient_result (cfg : Plugin.AuthConfig) (env : Plugin.ProcessEnv)
    (login_answer : Err + FetchResponse) (c : MattermostClient Obs) :
  Plugin.resolveClient Obs cfg env login_answer = inr c ->
  exists url tok,
    Plugin.nonempty (Plugin.serverUrl cfg) = Some url /\
    tok <> "" /\
    c = new_MattermostClient Obs url tok /\
    baseUrl c = strip_trailing_slashes url /\ token c = tok.
Proof.
  unfold Plugin.resolveClient.
  destruct (Plugin.nonempty (Plugin.serverUrl cfg)) as [url |]; [| discriminate].
  assert (Hne : forall o t, Plugin.nonempty o = Some t -> t <> "").
  { intros [[| a s] |] t; cbn; try discriminate. intros [= <-]. discriminate. }
  destruct (Plugin.nonempty (Plugin.token cfg)) as [pat |] eqn:Hpat.
  - intros [= <-]. exists url, pat. repeat split. exact (Hne _ _ Hpat).
  - destruct (Plugin.nonempty (Plugin.username cfg)),
             (Plugin.nonempty (Plugin.password cfg)).
    2-4: destruct (Plugin.nonempty (Plugin.or_else _ _)) as [envToken |] eqn:He;
         [| discriminate]; intros [= <-]; exists url, envToken; repeat split;
         exact (Hne _ _ He).
    destruct (login (new_MattermostClient Obs url "") login_answer)
      as [e | [t c']] eqn:Hlogin; [discriminate |].
    intros [= <-].
    apply login_success in Hlogin as (res & _ & _ & _ & Ht & ->).
    exists url, t. repeat split. exact Ht.
Qed.
End LoginFacts.

Section PluginFacts.
Context {Obs : Type}.
Variable JSON_parse : string -> option MattermostWsEvent.
Implicit Types (s : System Obs) (i : Input Obs) (l : list (Input Obs))
  (h : WsEventHandler Obs).

(** X27. The order in which [resolveClient] tries credentials. Without a
    server URL it fails before looking at any credential. A configured
    token wins: no login is made and the environment is not read. Without
    a token, a configured username and password mean a login, and a failed
    login is final: a token in the environment does not rescue it. Only
    when the username or the password is missing is the environment read,
    MATTERMOST_TOKEN before MATTERMOST_ACCESS_TOKEN. *)
Theorem credential_precedence (cfg : Plugin.AuthConfig) (env : Plugin.ProcessEnv)
    (login_answer : Err + FetchResponse) :
  (Plugin.nonempty (Plugin.serverUrl cfg) = None ->
   Plugin.resolveClient Obs cfg env login_answer = inl Plugin.SERVER_URL_REQUIRED) /\
  (forall url, Plugin.nonempty (Plugin.serverUrl cfg) = Some url ->
     (forall pat, Plugin.nonempty (Plugin.token cfg) = Some pat ->
        forall env' answer',
          Plugin.resolveClient Obs cfg env' answer'
          = inr (new_MattermostClient Obs url pat)) /\
     (Plugin.nonempty (Plugin.token cfg) = None ->
      (forall u p e,
         Plugin.nonempty (Plugin.username cfg) = Some u ->
         Plugin.nonempty (Plugin.password cfg) = Some p ->
         login (new_MattermostClient Obs url "") login_answer = inl e ->
         forall env', Plugin.resolveClient Obs cfg env' login_answer = inl e) /\
      (Plugin.nonempty (Plugin.username cfg) = None \/
       Plugin.nonempty (Plugin.password cfg) = None ->
       forall answer',
         Plugin.resolveClient Obs cfg env answer' =
         match Plugin.nonempty (Plugin.MATTERMOST_TOKEN env) with
         | Some t => inr (new_MattermostClient Obs url t)
         | None =>
             match Plugin.nonempty (Plugin.MATTERMOST_ACCESS_TOKEN env) with
             | Some t => inr (new_MattermostClient Obs url t)
             | None => inl Plugin.AUTH_REQUIRED
             end
         end))).
Proof.
  unfold Plugin.resolveClient. split; [intros ->; reflexivity |].
  intros url ->. split; [intros pat -> env' answer'; reflexivity |].
  intros ->. split.
  - intros u p e -> -> -> env'. reflexivity.
  - assert (Henv : Plugin.nonempty
                     (Plugin.or_else (Plugin.MATTERMOST_TOKEN env)
                        (Plugin.MATTERMOST_ACCESS_TOKEN env)) =
                   match Plugin.nonempty (Plugin.MATTERMOST_TOKEN env) with
                   | Some t => Some t
                   | None => Plugin.nonempty (Plugin.MATTERMOST_ACCESS_TOKEN env)
                   end).
    { unfold Plugin.or_else.
      destruct (Plugin.MATTERMOST_TOKEN env) as [[| a t] |]; reflexivity. }
    intros Hmissing answer'. rewrite Henv.
    destruct Hmissing as [-> | Hp].
    + destruct (Plugin.nonempty (Plugin.MATTERMOST_TOKEN env)); [reflexivity |].
      destruct (Plugin.nonempty (Plugin.MATTERMOST_ACCESS_TOKEN env)); reflexivity.
    + rewrite Hp. destruct (Plugin.nonempty (Plugin.username cfg));
        (destruct (Plugin.nonempty (Plugin.MATTERMOST_TOKEN env)); [reflexivity |];
         destruct (Plugin.nonempty (Plugin.MATTERMOST_ACCESS_TOKEN env)); reflexivity).
Qed.

Lemma steps_keep_listeners l : forall s s',
  forallb (fun i => negb (changes_listeners i)) l = true ->
  steps JSON_parse s l = Some s' ->
  wsListeners (this s') = wsListeners (this s).
Proof.
  induction l as [| i l IH]; intros s s' Hquiet Hsteps.
  - injection Hsteps as <-. reflexivity.
  - cbn [steps] in Hsteps.
    destruct (step JSON_parse s i) as [s1 |] eqn:Hstep; [| discriminate].
    cbn [forallb] in Hquiet. apply andb_true_iff in Hquiet as [Hi Hquiet].
    apply negb_true_iff in Hi.
    destruct (step_keeps_identity JSON_parse s i s1 Hstep) as (_ & _ & Hl).
    rewrite <- (Hl Hi). exact (IH s1 s' Hquiet Hsteps).
Qed.

(** A client that is disconnected, has nothing pending and no listener
    stays so, and nothing is delivered or scheduled. *)
Lemma silent_step s i s' :
  shouldReconnect (this s) = false -> no_pending s ->
  wsListeners (this s) = [] ->
  is_connect i = false -> changes_listeners i = false ->
  step JSON_parse s i = Some s' ->
  wsListeners (this s') = [] /\
  delivered s' = delivered s /\ outside s' = outside s /\
  scheduled_delays s' = scheduled_delays s.
Proof.
  intros Hflag Hpend Hnone Hconn Hlist Hstep.
  destruct (step_keeps_identity JSON_parse s i s' Hstep) as (_ & _ & Hl).
  split; [rewrite (Hl Hlist); exact Hnone |].
  destruct i; try discriminate; cbn [step] in Hstep.
  - injection Hstep as <-.
    destruct s as [[url0 tok sock listeners [t |] attempts armed] ? ? ? ?];
      destruct sock; cbn; repeat split;
      unfold scheduled_delays; cbn; apply map_alter_same; reflexivity.
  - case_bool_decide; [| discriminate]. injection Hstep as <-.
    destruct (on_open_cases (set_readyState sock OPEN s))
      as [-> | [-> | (cur & _ & _ & ->)]]; auto.
  - apply step_message in Hstep as ->.
    unfold on_message. destruct (JSON_parse raw); [| auto].
    rewrite Hnone. cbn. rewrite app_nil_r. auto.
  - destruct (state_of sock s) as [[]|]; try discriminate;
      injection Hstep as <-; auto.
  - assert (Hs' : s' = on_close (set_readyState sock CLOSED s)).
    { destruct (state_of sock s) as [[]|]; try discriminate;
        injection Hstep as <-; reflexivity. }
    subst s'. unfold on_close.
    change (shouldReconnect (this (set_readyState sock CLOSED s)))
      with (shouldReconnect (this s)).
    rewrite Hflag. auto.
  - case_bool_decide as Ht; [| discriminate]. exfalso.
    destruct (timeouts s !! t) as [k |] eqn:Hk; [| discriminate].
    injection Ht as Ht.
    exact (Forall_lookup_1 _ _ _ _ Hpend Hk Ht).
Qed.

Lemma silent_steps l : forall s s',
  shouldReconnect (this s) = false -> no_pending s ->
  wsListeners (this s) = [] ->
  no_connect l = true ->
  forallb (fun i => negb (changes_listeners i)) l = true ->
  steps JSON_parse s l = Some s' ->
  length (sockets s') = length (sockets s) /\
  delivered s' = delivered s /\ outside s' = outside s /\
  scheduled_delays s' = scheduled_delays s.
Proof.
  induction l as [| i l IH]; intros s s' Hflag Hpend Hnone Hconn Hlist Hsteps.
  - injection Hsteps as <-. auto.
  - cbn [steps] in Hsteps.
    destruct (step JSON_parse s i) as [s1 |] eqn:Hstep; [| discriminate].
    cbn [no_connect forallb] in Hconn, Hlist.
    apply andb_true_iff in Hconn as [Hc Hconn].
    apply andb_true_iff in Hlist as [Hl Hlist].
    apply negb_true_iff in Hc, Hl.
    destruct (quiet_step JSON_parse s i s1 Hflag Hpend Hc Hstep)
      as (Hflag1 & Hpend1 & Hlen1).
    destruct (silent_step s i s1 Hflag Hpend Hnone Hc Hl Hstep)
      as (Hnone1 & Hd1 & Ho1 & Hs1).
    destruct (IH s1 s' Hflag1 Hpend1 Hnone1 Hconn Hlist Hsteps)
      as (Hlen & Hd & Ho & Hs).
    repeat split; congruence.
Qed.

Lemma disconnect_keeps_listeners s :
  wsListeners (this (disconnectWebSocket s)) = wsListeners (this s).
Proof.
  destruct s as [[url0 tok sock listeners [t |] attempts armed] ? ? ? ?];
    destruct sock; reflexivity.
Qed.

Lemma single_track_start h serverUrl tok (o : Obs) :
  single_track (Plugin.start_connection h (init serverUrl tok o)).
Proof.
  split; [| split].
  - intros t k Hk. discriminate Hk.
  - intros [| a] [| b] x y Ha _ Hb _; try reflexivity; discriminate.
  - right. constructor.
Qed.

(** X28. After the plugin's shutdown nothing happens any more. For a
    client started the way [init] starts it (handler registered, then one
    connect), and shut down the way [shutdown] does it (handler removed,
    then disconnect), no later socket event or timeout constructs a
    socket, schedules a reconnect or reaches a listener. Frames may still
    arrive on the socket until its close event; it is the removal of the
    handler that keeps them from the plugin. *)
Theorem nothing_after_shutdown h serverUrl tok (o : Obs) l1 l2 s1 s2 :
  no_connect l1 = true ->
  forallb (fun i => negb (changes_listeners i)) l1 = true ->
  steps JSON_parse (Plugin.start_connection h (init serverUrl tok o)) l1
    = Some s1 ->
  no_connect l2 = true ->
  forallb (fun i => negb (changes_listeners i)) l2 = true ->
  steps JSON_parse (Plugin.shutdown_connection (Some h) s1) l2 = Some s2 ->
  length (sockets s2) = length (sockets s1) /\
  delivered s2 = delivered s1 /\ outside s2 = outside s1 /\
  scheduled_delays s2 = scheduled_delays s1.
Proof.
  intros Hc1 Hl1 Hs1 Hc2 Hl2 Hs2.
  pose proof (single_track_steps JSON_parse l1 _ s1
                (single_track_start h serverUrl tok o) Hc1 Hs1)
    as (Hslot & _ & _).
  pose proof (steps_keep_listeners l1 _ s1 Hl1 Hs1) as Hls.
  cbn in Hls.
  unfold Plugin.shutdown_connection in Hs2.
  assert (Hslot' : slot_holds_pending (unsubscribe h s1)) by exact Hslot.
  destruct (disconnectWebSocket_spec (unsubscribe h s1))
    as (Hflag & _ & _ & Hlen & _).
  assert (Hnone : wsListeners (this (disconnectWebSocket (unsubscribe h s1))) = []).
  { rewrite disconnect_keeps_listeners.
    unfold unsubscribe, with_this, set_wsListeners. cbn [this wsListeners].
    rewrite Hls.
    rewrite filter_cons_False, filter_nil; [reflexivity |].
    rewrite negb_True, Is_true_true, Nat.eqb_eq. intros Hne. apply Hne.
    reflexivity. }
  destruct (silent_steps l2 _ s2 Hflag (disconnect_quiesces _ Hslot') Hnone
              Hc2 Hl2 Hs2) as (Hlen2 & Hd & Ho & Hsch).
  assert (Hpres : delivered (disconnectWebSocket (unsubscribe h s1)) = delivered s1
                  /\ outside (disconnectWebSocket (unsubscribe h s1)) = outside s1
                  /\ scheduled_delays (disconnectWebSocket (unsubscribe h s1))
                     = scheduled_delays s1).
  { clear. destruct s1 as [[url0 tok sock listeners [t |] attempts armed] ? ? ? ?];
      destruct sock; cbn; repeat split;
      unfold scheduled_delays; cbn; apply map_alter_same; reflexivity. }
  destruct Hpres as (Hd0 & Ho0 & Hs0).
  repeat split; try congruence.
  rewrite Hlen2, Hlen. reflexivity.
Qed.
End PluginFacts.

(** ** Closed instances *)

Lemma backoff_is_bounded_witness :
  match steps Samples.parse_any Samples.fresh (Samples.outage 11) with
  | Some s' =>
      (reconnectAttempts (this s') <= maxReconnectAttempts)%nat /\
      Forall (fun d => exists k, (k < maxReconnectAttempts)%nat /\
                                 d = (reconnectBaseDelay * 2 ^ Z.of_nat k)%Z)
        (scheduled_delays s') /\
      Forall (fun d => (1000 <= d <= 512000)%Z) (scheduled_delays s')
  | None => False
  end.
Proof.
  destruct (steps Samples.parse_any Samples.fresh (Samples.outage 11))
    as [s' |] eqn:Hsteps; [| vm_compute in Hsteps; discriminate Hsteps].
  exact (backoff_is_bounded Samples.parse_any _ _ _ _ s' Hsteps).
Defined.

Lemma exhausted_until_open_witness :
  match steps Samples.parse_any Samples.exhausted
          [CallConnect; SocketClose 11] with
  | Some s' =>
      reconnectAttempts (this s') = maxReconnectAttempts /\
      scheduled_delays s' = scheduled_delays Samples.exhausted
  | None => False
  end.
Proof.
  destruct (steps Samples.parse_any Samples.exhausted
              [CallConnect; SocketClose 11])
    as [s' |] eqn:Hsteps; [| vm_compute in Hsteps; discriminate Hsteps].
  apply (exhausted_until_open Samples.parse_any Samples.exhausted
           [CallConnect; SocketClose 11] s');
    [vm_compute; reflexivity | reflexivity | exact Hsteps].
Defined.

Lemma listeners_survive_reconnects_witness :
  match steps Samples.parse_any
          (Plugin.start_connection Samples.counter Samples.fresh)
          Samples.reconnect_once with
  | Some s' =>
      wsListeners (this s') =
      wsListeners (this (Plugin.start_connection Samples.counter Samples.fresh))
  | None => False
  end.
Proof.
  destruct (steps Samples.parse_any
              (Plugin.start_connection Samples.counter Samples.fresh)
              Samples.reconnect_once)
    as [s' |] eqn:Hsteps; [| vm_compute in Hsteps; discriminate Hsteps].
  apply (listeners_survive_reconnects Samples.parse_any Samples.reconnect_once
           _ s'); [reflexivity | exact Hsteps].
Defined.

Lemma client_sends_only_its_token_witness :
  match steps Samples.parse_any Samples.fresh
          (CallConnect :: Samples.reconnect_once) with
  | Some s' =>
      token (this s') = "test-token" /\
      Forall (fun k => Forall
                         (fun f => f = authentication_challenge 1 "test-token")
                         (sent k))
        (sockets s')
  | None => False
  end.
Proof.
  destruct (steps Samples.parse_any Samples.fresh
              (CallConnect :: Samples.reconnect_once))
    as [s' |] eqn:Hsteps; [| vm_compute in Hsteps; discriminate Hsteps].
  exact (client_sends_only_its_token Samples.parse_any _ _ _ _ s' Hsteps).
Defined.

Lemma single_connect_one_socket_at_a_time_witness :
  match steps Samples.parse_any (connectWebSocket Samples.fresh)
          Samples.reconnect_once with
  | Some s' =>
      one_live_socket s' /\ (no_live_socket s' \/ no_pending s') /\
      slot_holds_pending s'
  | None => False
  end.
Proof.
  destruct (steps Samples.parse_any (connectWebSocket Samples.fresh)
              Samples.reconnect_once)
    as [s' |] eqn:Hsteps; [| vm_compute in Hsteps; discriminate Hsteps].
  apply (single_connect_one_socket_at_a_time Samples.parse_any
           "https://mattermost.example.com/" "test-token" 0%nat
           Samples.reconnect_once s'); [reflexivity | exact Hsteps].
Defined.

Lemma single_connect_disconnect_is_final_witness :
  match steps Samples.parse_any (connectWebSocket Samples.fresh)
          [SocketOpen 0; SocketClose 0; TimerExpired 0; SocketOpen 1] with
  | Some s1 =>
      match steps Samples.parse_any (disconnectWebSocket s1)
              [SocketError 1; SocketClose 1] with
      | Some s2 => length (sockets s2) = length (sockets s1)
      | None => False
      end
  | None => False
  end.
Proof.
  destruct (steps Samples.parse_any (connectWebSocket Samples.fresh)
              [SocketOpen 0; SocketClose 0; TimerExpired 0; SocketOpen 1])
    as [s1 |] eqn:Hs1; [| vm_compute in Hs1; discriminate Hs1].
  destruct (steps Samples.parse_any (disconnectWebSocket s1)
              [SocketError 1; SocketClose 1])
    as [s2 |] eqn:Hs2.
  - apply (single_connect_disconnect_is_final Samples.parse_any
             "https://mattermost.example.com/" "test-token" 0%nat
             [SocketOpen 0; SocketClose 0; TimerExpired 0; SocketOpen 1] [SocketError 1; SocketClose 1]
             s1 s2); [reflexivity | reflexivity | exact Hs1 | exact Hs2].
  - vm_compute in Hs1. injection Hs1 as <-. vm_compute in Hs2.
    discriminate Hs2.
Defined.

Lemma request_error_is_descriptive_witness :
  exists msg,
    request (T := unit) "GET" "/users/me" (inr Samples.unauthorized) (inr tt)
      = inl msg /\
    includes "GET" msg = true /\
    includes "/users/me" msg = true /\
    includes (status_text (status Samples.unauthorized)) msg = true /\
    exists head, msg = head +:+ text Samples.unauthorized.
Proof.
  apply request_error_is_descriptive. reflexivity.
Defined.

Lemma resolveClient_result_witness :
  exists url tok,
    Plugin.nonempty (Plugin.serverUrl Samples.password_config) = Some url /\
    tok <> "" /\
    set_token (new_MattermostClient nat "https://mm.example.com/" "")
      "session-token-xyz" = new_MattermostClient nat url tok /\
    baseUrl (set_token (new_MattermostClient nat "https://mm.example.com/" "")
               "session-token-xyz") = strip_trailing_slashes url /\
    token (set_token (new_MattermostClient nat "https://mm.example.com/" "")
             "session-token-xyz") = tok.
Proof.
  apply (resolveClient_result Samples.password_config Samples.env_with_token
           (inr Samples.logged_in)).
  reflexivity.
Defined.

Lemma credential_precedence_witness :
  Plugin.resolveClient nat Samples.pat_config Samples.env_with_token
    (inr Samples.unauthorized)
  = inr (new_MattermostClient nat "https://mm.example.com/" "pat-token-123") /\
  exists e,
    Plugin.resolveClient nat Samples.password_config Samples.env_with_token
      (inr Samples.unauthorized) = inl e.
Proof.
  destruct (credential_precedence (Obs := nat) Samples.pat_config
              Samples.env_with_token (inr Samples.unauthorized))
    as [_ Hpat].
  destruct (credential_precedence (Obs := nat) Samples.password_config
              Samples.env_with_token (inr Samples.unauthorized))
    as [_ Hpw].
  split.
  - apply (proj1 (Hpat "https://mm.example.com/" eq_refl) "pat-token-123").
    reflexivity.
  - eexists.
    apply (proj1 (proj2 (Hpw "https://mm.example.com/" eq_refl) eq_refl)
             "wopr-bot" "password123"); reflexivity.
Defined.

Lemma nothing_after_shutdown_witness :
  match steps Samples.parse_any
          (Plugin.start_connection Samples.counter Samples.fresh)
          [SocketOpen 0; SocketMessage 0 "frame"] with
  | Some s1 =>
      match steps Samples.parse_any
              (Plugin.shutdown_connection (Some Samples.counter) s1)
              Samples.late_frame with
      | Some s2 =>
          length (sockets s2) = length (sockets s1) /\
          delivered s2 = delivered s1 /\ outside s2 = outside s1 /\
          scheduled_delays s2 = scheduled_delays s1
      | None => False
      end
  | None => False
  end.
Proof.
  destruct (steps Samples.parse_any
              (Plugin.start_connection Samples.counter Samples.fresh)
              [SocketOpen 0; SocketMessage 0 "frame"])
    as [s1 |] eqn:Hs1; [| vm_compute in Hs1; discriminate Hs1].
  destruct (steps Samples.parse_any
              (Plugin.shutdown_connection (Some Samples.counter) s1)
              Samples.late_frame)
    as [s2 |] eqn:Hs2.
  - apply (nothing_after_shutdown Samples.parse_any Samples.counter
             "https://mattermost.example.com/" "test-token" 0%nat
             [SocketOpen 0; SocketMessage 0 "frame"]
             Samples.late_frame s1 s2);
      [reflexivity | reflexivity | exact Hs1 | reflexivity | reflexivity
      | exact Hs2].
  - vm_compute in Hs1. injection Hs1 as <-. vm_compute in Hs2.
    discriminate Hs2.
Defined.

(** The same run with the handler left registered: the frame that arrives
    between [disconnectWebSocket] and the close event of the socket
    reaches it. *)
Example late_frame_reaches_kept_listener :
  (fun s => (map readyState (sockets s), delivered s, outside s))
    <$> steps Samples.parse_any
          (Plugin.shutdown_connection None
             (default Samples.fresh
                (steps Samples.parse_any
                   (Plugin.start_connection Samples.counter Samples.fresh)
                   [SocketOpen 0])))
          [SocketMessage 0 "frame"]
  = Some ([CLOSING], [(2%nat, Samples.frame_event)], 1%nat).
Proof. reflexivity. Qed.
